(** * OBJ loading and arcball interaction of the WebGL viewer

    A shallow embedding of [OBJLoader] (load, parseVertex, parseFace,
    triangulateFace) and of [WebGlApp.updateCamera] /
    [WebGlApp.updateSceneNode], with the properties the specification states
    about them.

    Number model.  A JavaScript number is modelled by [number]: an exact
    rational, or one of the three special values NaN, +Infinity, -Infinity.
    In the embedding of the code, arithmetic on finite values is exact:
    the rounding of every result to binary64, overflow, the sign of zero
    and the binary32 entries of the vectors and matrices of glMatrix are
    left out.  The special values follow IEEE 754 (zero counts as +0 when
    it divides).  What is proved of that embedding does not rest on what
    it leaves out: which lines are read and which indices come out, which
    interaction mode runs, the order in which matrices are multiplied, how
    NaN spreads, products by 0 and 1, and formulas written with the
    operations of the code.

    [Binary64] defines the rounding.  The normalization of load and
    updateCamera are given a second time with every operation rounded
    (the definitions named [..._binary64]): what is stated of the
    normalization and of the zoom and pan frames is proved of both, and
    sample inputs show where rounding and overflow make the code differ
    from exact arithmetic. *)

From Stdlib Require Import List String Ascii Bool ZArith QArith Qcanon Lia Lqa.
From Stdlib Require FloatOps Uint63.
Import ListNotations.

Local Open Scope string_scope.
Local Open Scope list_scope.

(* ================================================================== *)
(** ** JavaScript numbers *)

Module JsNumber.

Inductive number : Type :=
| Fin (q : Qc)
| PInf
| NInf
| NaN.

Definition of_Z (z : Z) : number := Fin (Q2Qc (inject_Z z)).

Definition zero : number := of_Z 0.
Definition one : number := of_Z 1.
Definition two : number := of_Z 2.

Definition is_finite (x : number) : bool :=
  match x with Fin _ => true | _ => false end.

Definition is_nan (x : number) : bool :=
  match x with NaN => true | _ => false end.

Definition Qc_eqb (a b : Qc) : bool := Qeq_bool a b.
Definition Qc_ltb (a b : Qc) : bool := negb (Qle_bool b a).
Definition Qc_leb (a b : Qc) : bool := Qle_bool a b.

(** Sign of a finite value: [Lt] negative, [Eq] zero, [Gt] positive. *)
Definition Qc_sign (a : Qc) : comparison := (0 ?= a)%Q.

Definition neg (x : number) : number :=
  match x with
  | Fin a => Fin (- a)
  | PInf => NInf
  | NInf => PInf
  | NaN => NaN
  end.

(** Sum, product and quotient; on finite values the exact ones, before
    JavaScript rounds them to binary64 ([Binary64.add64] and the like are
    the rounded ones). *)
Definition add (x y : number) : number :=
  match x, y with
  | NaN, _ | _, NaN => NaN
  | Fin a, Fin b => Fin (a + b)
  | PInf, NInf | NInf, PInf => NaN
  | PInf, _ | _, PInf => PInf
  | NInf, _ | _, NInf => NInf
  end.

Definition sub (x y : number) : number := add x (neg y).

(** An infinity with the sign of a finite factor; NaN when the factor is 0. *)
Definition inf_times (positive : bool) (a : Qc) : number :=
  match Qc_sign a with
  | Eq => NaN
  | Lt => if positive then PInf else NInf
  | Gt => if positive then NInf else PInf
  end.

Definition mul (x y : number) : number :=
  match x, y with
  | NaN, _ | _, NaN => NaN
  | Fin a, Fin b => Fin (a * b)
  | PInf, Fin b => inf_times true b
  | NInf, Fin b => inf_times false b
  | Fin a, PInf => inf_times true a
  | Fin a, NInf => inf_times false a
  | PInf, PInf | NInf, NInf => PInf
  | PInf, NInf | NInf, PInf => NInf
  end.

Definition div (x y : number) : number :=
  match x, y with
  | NaN, _ | _, NaN => NaN
  | Fin a, Fin b =>
      if Qc_eqb b 0 then
        match Qc_sign a with Eq => NaN | Lt => PInf | Gt => NInf end
      else Fin (a / b)
  | Fin _, _ => Fin 0
  | PInf, Fin b => if Qc_ltb b 0 then NInf else PInf
  | NInf, Fin b => if Qc_ltb b 0 then PInf else NInf
  | _, _ => NaN
  end.

(** [x <= y] on non-NaN values. *)
Definition leb (x y : number) : bool :=
  match x, y with
  | NaN, _ | _, NaN => false
  | NInf, _ | _, PInf => true
  | Fin a, Fin b => Qc_leb a b
  | _, _ => false
  end.

Definition ltb (x y : number) : bool :=
  match x, y with
  | NaN, _ | _, NaN => false
  | Fin a, Fin b => Qc_ltb a b
  | NInf, NInf | PInf, PInf => false
  | NInf, _ | _, PInf => true
  | _, _ => false
  end.

(** [Math.min] / [Math.max]: NaN as soon as one argument is NaN. *)
Definition min (x y : number) : number :=
  match x, y with
  | NaN, _ | _, NaN => NaN
  | _, _ => if leb x y then x else y
  end.

Definition max (x y : number) : number :=
  match x, y with
  | NaN, _ | _, NaN => NaN
  | _, _ => if leb x y then y else x
  end.

Definition eqb (x y : number) : bool :=
  match x, y with
  | Fin a, Fin b => Qc_eqb a b
  | PInf, PInf | NInf, NInf | NaN, NaN => true
  | _, _ => false
  end.

Fixpoint list_eqb (xs ys : list number) : bool :=
  match xs, ys with
  | [], [] => true
  | x :: xs', y :: ys' => eqb x y && list_eqb xs' ys'
  | _, _ => false
  end.

End JsNumber.

Export JsNumber.

Declare Scope js_scope.
Delimit Scope js_scope with js.
Bind Scope js_scope with number.
Infix "+" := add : js_scope.
Infix "-" := sub : js_scope.
Infix "*" := mul : js_scope.
Infix "/" := div : js_scope.
Notation "- x" := (neg x) : js_scope.

(* ================================================================== *)
(** ** Rounding to binary64 and binary32 *)

Module Binary64.

(** Rounding to nearest, ties to even, of a rational to a binary
    floating-point format, with its subnormal values and its overflow to
    an infinity.  Both zeros of the format are the number 0. *)

(** [n/d >= 2^e] *)
Definition ge_pow2 (n d : positive) (e : Z) : bool :=
  if (0 <=? e)%Z then (Zpos d * 2 ^ e <=? Zpos n)%Z
  else (Zpos d <=? Zpos n * 2 ^ (- e))%Z.

(** The exponent of the binade of [n/d]: the largest [e] with
    [2^e <= n/d]. *)
Definition floor_log2 (n d : positive) : Z :=
  let e := (Z.log2 (Zpos n) - Z.log2 (Zpos d))%Z in
  if ge_pow2 n d e then e else (e - 1)%Z.

(** The integer nearest to [n/d], the even one when two are as near. *)
Definition nearest_even (n d : Z) : Z :=
  let q := (n / d)%Z in
  match (2 * (n mod d) ?= d)%Z with
  | Lt => q
  | Gt => (q + 1)%Z
  | Eq => if Z.even q then q else (q + 1)%Z
  end.

(** The positive rational [n/d] rounded to a binary format with [prec]
    bits of precision and exponents from [emin] to [emax]: the nearest
    multiple of the unit in the last place of its binade (of the binade
    [emin] for the subnormal values), ties to even; no value when the
    result passes the largest value of the format. *)
Definition round_pos (prec emin emax : Z) (n d : positive) : option Q :=
  let e := Z.max (floor_log2 n d) emin in
  let s := (e - (prec - 1))%Z in
  if (0 <=? s)%Z then
    let m := nearest_even (Zpos n) (Zpos d * 2 ^ s) in
    if (2 ^ (emax + 1) <=? m * 2 ^ s)%Z then None
    else Some (inject_Z (m * 2 ^ s))
  else
    let m := nearest_even (Zpos n * 2 ^ (- s)) (Zpos d) in
    Some (m # Z.to_pos (2 ^ (- s))).

Definition round_to (prec emin emax : Z) (q : Qc) : number :=
  match Qnum q with
  | Z0 => Fin q
  | Zpos n =>
      match round_pos prec emin emax n (Qden q) with
      | Some v => Fin (Q2Qc v)
      | None => PInf
      end
  | Zneg n =>
      match round_pos prec emin emax n (Qden q) with
      | Some v => Fin (Q2Qc (- v))
      | None => NInf
      end
  end.

(** The binary64 value nearest to [q]: what a JavaScript operation with
    the exact result [q] returns. *)
Definition round64 : Qc -> number := round_to 53 (-1022) 1023.

(** The binary32 value nearest to [q]: what an entry of a Float32Array
    keeps of [q]. *)
Definition round32 : Qc -> number := round_to 24 (-126) 127.

Definition r64 (x : number) : number :=
  match x with Fin q => round64 q | _ => x end.

Definition r32 (x : number) : number :=
  match x with Fin q => round32 q | _ => x end.

(** The arithmetic of JavaScript on binary64 values: the exact result,
    rounded. *)
Definition add64 (x y : number) : number := r64 (add x y).
Definition sub64 (x y : number) : number := r64 (sub x y).
Definition mul64 (x y : number) : number := r64 (mul x y).
Definition div64 (x y : number) : number := r64 (div x y).

(** The binary64 value written [n/d] in a program or a file. *)
Definition d64 (n d : Z) : number := r64 (Fin (Q2Qc (n # Z.to_pos d))).

(** The binary32 value nearest to the binary64 value [n/d]. *)
Definition f32 (n d : Z) : number := r32 (d64 n d).

(** The number a binary64 value of the kernel stands for, and the kernel's
    quotient of two integers below [2^53]. *)
Definition of_float (f : PrimFloat.float) : number :=
  match FloatOps.Prim2SF f with
  | SpecFloat.S754_zero _ => zero
  | SpecFloat.S754_infinity false => PInf
  | SpecFloat.S754_infinity true => NInf
  | SpecFloat.S754_nan => NaN
  | SpecFloat.S754_finite s m e =>
      let v :=
        if (0 <=? e)%Z then inject_Z (Zpos m * 2 ^ e)
        else (Zpos m # Z.to_pos (2 ^ (- e))) in
      Fin (Q2Qc (if s then - v else v))
  end.

Definition float_ratio (n d : Z) : PrimFloat.float :=
  PrimFloat.div (PrimFloat.of_uint63 (Uint63.of_Z n))
                (PrimFloat.of_uint63 (Uint63.of_Z d)).

End Binary64.

Export Binary64.

(* ================================================================== *)
(** ** JavaScript strings (code units 0..255) *)

Module JsString.

(** The white space of [String.prototype.trim] and of the regular
    expression class [\s], among the code units 0..255: TAB, LF, VT, FF, CR,
    SPACE and NO-BREAK SPACE. *)
Definition is_ws (c : ascii) : bool :=
  let n := nat_of_ascii c in
  ((9 <=? n) && (n <=? 13) || (n =? 32) || (n =? 160))%nat.

Definition is_empty (s : string) : bool :=
  match s with EmptyString => true | _ => false end.

Fixpoint trimStart (s : string) : string :=
  match s with
  | String c r => if is_ws c then trimStart r else s
  | EmptyString => EmptyString
  end.

Fixpoint trimEnd (s : string) : string :=
  match s with
  | String c r =>
      let r' := trimEnd r in
      if is_ws c && is_empty r' then EmptyString else String c r'
  | EmptyString => EmptyString
  end.

(** [s.trim()] *)
Definition trim (s : string) : string := trimEnd (trimStart s).

(** [s.startsWith(p)] *)
Definition startsWith (s p : string) : bool := String.prefix p s.

(** Puts a code unit in front of the first piece of a split. *)
Definition cons_first (c : ascii) (l : list string) : list string :=
  match l with
  | h :: t => String c h :: t
  | [] => [String c EmptyString]
  end.

(** [s.split(sep)] for a one-character separator: never an empty list. *)
Fixpoint split_char (sep : ascii) (s : string) : list string :=
  match s with
  | EmptyString => [EmptyString]
  | String c r =>
      if Ascii.eqb c sep then EmptyString :: split_char sep r
      else cons_first c (split_char sep r)
  end.

(** [s.split(/\s+/)]: the pieces between maximal runs of white space;
    [in_ws] tells that the previous code unit was white space. *)
Fixpoint split_ws_from (in_ws : bool) (s : string) : list string :=
  match s with
  | EmptyString => [EmptyString]
  | String c r =>
      if is_ws c then
        if in_ws then split_ws_from true r
        else EmptyString :: split_ws_from true r
      else cons_first c (split_ws_from false r)
  end.

Definition split_ws (s : string) : list string := split_ws_from false s.

Definition is_digit (c : ascii) : bool :=
  let n := nat_of_ascii c in ((48 <=? n) && (n <=? 57))%nat.

Definition digit_val (c : ascii) : Z := (Z.of_nat (nat_of_ascii c) - 48)%Z.

(** Value of a hexadecimal digit, if [c] is one. *)
Definition hex_val (c : ascii) : option Z :=
  let n := nat_of_ascii c in
  if ((48 <=? n) && (n <=? 57))%nat then Some (Z.of_nat n - 48)%Z
  else if ((65 <=? n) && (n <=? 70))%nat then Some (Z.of_nat n - 55)%Z
  else if ((97 <=? n) && (n <=? 102))%nat then Some (Z.of_nat n - 87)%Z
  else None.

(** Longest prefix of decimal digits: its value (continuing [acc]), how many
    digits it has, and the rest of the string. *)
Fixpoint take_digits (acc : Z) (s : string) : Z * nat * string :=
  match s with
  | String c r =>
      if is_digit c then
        let '(v, n, rest) := take_digits (acc * 10 + digit_val c)%Z r in
        (v, S n, rest)
      else (acc, O, s)
  | EmptyString => (acc, O, s)
  end.

Fixpoint take_hex_digits (acc : Z) (s : string) : Z * nat * string :=
  match s with
  | String c r =>
      match hex_val c with
      | Some d =>
          let '(v, n, rest) := take_hex_digits (acc * 16 + d)%Z r in
          (v, S n, rest)
      | None => (acc, O, s)
      end
  | EmptyString => (acc, O, s)
  end.

(** An optional sign: [true] when it is a minus. *)
Definition take_sign (s : string) : bool * string :=
  match s with
  | String "-" r => (true, r)
  | String "+" r => (false, r)
  | _ => (false, s)
  end.

Definition signed (negative : bool) (x : number) : number :=
  if negative then neg x else x.

(** The exponent part [e], [e+] or [e-] followed by at least one digit; 0
    when there is none. *)
Definition take_exponent (s : string) : Z :=
  match s with
  | String c r =>
      if Ascii.eqb c "e" || Ascii.eqb c "E" then
        let '(negative, r1) := take_sign r in
        let '(v, n, _) := take_digits 0 r1 in
        match n with
        | O => 0
        | S _ => if negative then - v else v
        end
      else 0
  | EmptyString => 0
  end%Z.

(** [m * 10^e] as an exact rational. *)
Definition decimal (m e : Z) : Qc := Q2Qc (inject_Z m * Qpower (10 # 1) e).

(** [parseFloat(s)]: the value of the longest prefix of [s], after leading
    white space, that is a decimal literal; NaN when there is none.  The
    value is the exact decimal; JavaScript returns the binary64 value
    nearest to it, [r64] of this one. *)
Definition parseFloat (s : string) : number :=
  let '(negative, s1) := take_sign (trimStart s) in
  if String.prefix "Infinity" s1 then signed negative PInf
  else
    let '(ip, ni, s2) := take_digits 0 s1 in
    let '(m, nf, s3) :=
      match s2 with
      | String "." r => take_digits ip r
      | _ => (ip, O, s2)
      end in
    match ni, nf with
    | O, O => NaN
    | _, _ =>
        signed negative (Fin (decimal m (take_exponent s3 - Z.of_nat nf)))
    end.

(** [parseInt(s)] with no radix: an optional sign, then hexadecimal digits
    after [0x] / [0X], decimal digits otherwise; NaN when there is no
    digit.  The value is the exact integer; above [2^53] JavaScript
    returns the binary64 value nearest to it. *)
Definition parseInt (s : string) : number :=
  let '(negative, s1) := take_sign (trimStart s) in
  let '(v, n, _) :=
    match s1 with
    | String "0" (String "x" r) | String "0" (String "X" r) =>
        take_hex_digits 0 r
    | _ => take_digits 0 s1
    end in
  match n with
  | O => NaN
  | S _ => signed negative (of_Z v)
  end.

End JsString.

Export JsString.

(* ================================================================== *)
(** ** Arrays of three numbers *)

Record vec3 : Type := Vec3 { v0 : number; v1 : number; v2 : number }.

(** [a[i]] of a JavaScript array of numbers.  Past the end JavaScript gives
    [undefined]; every use the code makes of such an entry converts it to a
    number ([Math.min], [Math.max], arithmetic), which gives NaN. *)
Definition at_index (a : list number) (i : nat) : number := nth i a NaN.

(* ================================================================== *)
(** ** OBJLoader *)

Module OBJLoader.

Local Open Scope js_scope.

(** [parts[i]] handed to [parseFloat] / [parseInt]: an absent entry is
    [undefined], which these functions read as the string "undefined". *)
Definition part (parts : list string) (i : nat) : string :=
  nth i parts "undefined"%string.

(** OBJLoader.parseVertex *)
Definition parseVertex (vertex_string : string) : list number :=
  let parts := split_ws (trim vertex_string) in
  [ parseFloat (part parts 1);
    parseFloat (part parts 2);
    parseFloat (part parts 3) ].

(** OBJLoader.triangulateFace (an absent entry never occurs: parseFace
    calls it with four indices). *)
Definition triangulateFace (face : list number) : list number :=
  [ at_index face 0; at_index face 1; at_index face 2;
    at_index face 0; at_index face 2; at_index face 3 ].

(** The loop of parseFace over [parts[1..]]: [rest] is what is left of
    [parts], [indices] what has been pushed so far. *)
Fixpoint parseFace_loop (rest : list string) (indices : list number)
  : list number :=
  match rest with
  | [] => indices
  | p :: rest' =>
      let token := split_char "/" p in
      parseFace_loop rest' (indices ++ [parseInt (part token 0) - one])
  end.

(** OBJLoader.parseFace *)
Definition parseFace (face_string : string) : list number :=
  let parts := split_ws (trim face_string) in
  let indices := parseFace_loop (tl parts) [] in
  if (List.length indices =? 4)%nat then triangulateFace indices else indices.

(** The parsing loop of load: [vertices] and [indices] after all [lines]. *)
Fixpoint parse_lines (lines : list string) (vertices indices : list number)
  : list number * list number :=
  match lines with
  | [] => (vertices, indices)
  | line :: lines' =>
      let line := trim line in
      if startsWith line "v " then
        parse_lines lines' (vertices ++ parseVertex line) indices
      else if startsWith line "f " then
        parse_lines lines' vertices (indices ++ parseFace line)
      else parse_lines lines' vertices indices
  end.

Definition min3 (m p : vec3) : vec3 :=
  Vec3 (min (v0 m) (v0 p)) (min (v1 m) (v1 p)) (min (v2 m) (v2 p)).

Definition max3 (m p : vec3) : vec3 :=
  Vec3 (max (v0 m) (v0 p)) (max (v1 m) (v1 p)) (max (v2 m) (v2 p)).

(** The min/max loop of load, three entries of [vertices] per round; a
    last round that runs past the end reads [undefined]. *)
Fixpoint bounds_loop (vs : list number) (mn mx : vec3) : vec3 * vec3 :=
  match vs with
  | [] => (mn, mx)
  | a :: b :: c :: rest =>
      bounds_loop rest (min3 mn (Vec3 a b c)) (max3 mx (Vec3 a b c))
  | [a; b] => (min3 mn (Vec3 a b NaN), max3 mx (Vec3 a b NaN))
  | [a] => (min3 mn (Vec3 a NaN NaN), max3 mx (Vec3 a NaN NaN))
  end.

(** [min] and [max] of load after the loop, both seeded with the first
    vertex. *)
Definition bounds (vertices : list number) : vec3 * vec3 :=
  let first :=
    Vec3 (at_index vertices 0) (at_index vertices 1) (at_index vertices 2) in
  bounds_loop vertices first first.

Definition center_of (mn mx : vec3) : vec3 :=
  Vec3 ((v0 mx + v0 mn) / two) ((v1 mx + v1 mn) / two)
       ((v2 mx + v2 mn) / two).

Definition range_of (mn mx : vec3) : number :=
  max (max (v0 mx - v0 mn) (v1 mx - v1 mn)) (v2 mx - v2 mn).

(** The last loop of load; a write past the end extends the array. *)
Fixpoint apply_normalization (vs : list number) (center : vec3)
  (range : number) : list number :=
  match vs with
  | [] => []
  | a :: b :: c :: rest =>
      (a - v0 center) / (range / two)
      :: (b - v1 center) / (range / two)
      :: (c - v2 center) / (range / two)
      :: apply_normalization rest center range
  | [a; b] =>
      [ (a - v0 center) / (range / two);
        (b - v1 center) / (range / two);
        (NaN - v2 center) / (range / two) ]
  | [a] =>
      [ (a - v0 center) / (range / two);
        (NaN - v1 center) / (range / two);
        (NaN - v2 center) / (range / two) ]
  end.

(** The normalization part of load. *)
Definition normalization (vertices : list number) : list number :=
  let '(mn, mx) := bounds vertices in
  let center := center_of mn mx in
  let range := range_of mn mx in
  apply_normalization vertices center range.

Definition LF : ascii := ascii_of_nat 10.

(** OBJLoader.load, on the contents of the file: the pair
    [[vertices, indices]] it returns. *)
Definition load (contents : string) : list number * list number :=
  let lines := split_char LF contents in
  let '(vertices, indices) := parse_lines lines [] [] in
  (normalization vertices, indices).

(** *** What the properties of the loader are stated with *)

(** The lines of the file as the parsing loop tests them: trimmed. *)
Definition trimmed_lines (contents : string) : list string :=
  map trim (split_char LF contents).

Definition is_vertex_line (line : string) : bool := startsWith line "v ".

Definition is_face_line (line : string) : bool :=
  negb (startsWith line "v ") && startsWith line "f ".

Definition vertex_lines (contents : string) : list string :=
  filter is_vertex_line (trimmed_lines contents).

Definition face_lines (contents : string) : list string :=
  filter is_face_line (trimmed_lines contents).

(** [vertices] of load when the parsing loop ends, before normalization. *)
Definition raw_vertices (contents : string) : list number :=
  fst (parse_lines (split_char LF contents) [] []).

(** The reference tokens of a face line, and the index one of them stands
    for: its first component, minus one. *)
Definition references (face_string : string) : list string :=
  tl (split_ws (trim face_string)).

Definition convert_reference (reference : string) : number :=
  parseInt (part (split_char "/" reference) 0) - one.

(** [0 <= i < vertex_count] *)
Definition index_in_range (vertex_count : nat) (i : number) : bool :=
  leb zero i && ltb i (of_Z (Z.of_nat vertex_count)).

(** Every index of a mesh refers to one of its [length positions / 3]
    vertices. *)
Definition indices_in_range (mesh : list number * list number) : bool :=
  forallb (index_in_range (List.length (fst mesh) / 3)) (snd mesh).



(** Axis-aligned bounding box of a position array, computed as load
    computes it: centre, extent along one axis, largest extent. *)
Definition bbox_center (positions : list number) : vec3 :=
  let '(mn, mx) := bounds positions in center_of mn mx.

Definition bbox_range (positions : list number) : number :=
  let '(mn, mx) := bounds positions in range_of mn mx.

Definition axis (v : vec3) (j : nat) : number :=
  match j with
  | 0%nat => v0 v
  | 1%nat => v1 v
  | _ => v2 v
  end.

(** The flat array of a list of vertices, and the vertex load makes of one
    by its last loop. *)
Fixpoint flatten3 (l : list vec3) : list number :=
  match l with
  | [] => []
  | p :: l' => v0 p :: v1 p :: v2 p :: flatten3 l'
  end.

Definition vertex_of_line (line : string) : vec3 :=
  Vec3 (at_index (parseVertex line) 0) (at_index (parseVertex line) 1)
       (at_index (parseVertex line) 2).

Definition normalize_vertex (center : vec3) (range : number) (p : vec3)
  : vec3 :=
  Vec3 ((v0 p - v0 center) / (range / two))
       ((v1 p - v1 center) / (range / two))
       ((v2 p - v2 center) / (range / two)).

(** A face line with three or four references. *)
Definition triangle_or_quad (face_string : string) : Prop :=
  List.length (references face_string) = 3%nat
  \/ List.length (references face_string) = 4%nat.

Definition nl : string := String LF EmptyString.

(** Sample files. *)
Definition two_vertices_one_triangle : string :=
  "v 0 0 0" ++ nl ++ "v 2 0 0" ++ nl ++ "f 1 2 3".
Definition faces_only : string := "f 1 2 3".
Definition coincident_vertices : string :=
  "v 1 1 1" ++ nl ++ "v 1 1 1" ++ nl ++ "f 1 2 1".
Definition box_corners : string :=
  "v 0 0 0" ++ nl ++ "v 2 1 4" ++ nl ++ "f 1 2 1".
Definition pentagon : string :=
  "v 0 0 0" ++ nl ++ "f 1 2 3" ++ nl ++ "f 1 2 3 4 5" ++ nl ++ "f 1 2 3 4".

(** *** Further notions the properties of the loader are stated with *)

Definition CR : ascii := ascii_of_nat 13.

(** The same text with Windows line ends: a carriage return in front of
    every line feed. *)
Fixpoint crlf (s : string) : string :=
  match s with
  | EmptyString => EmptyString
  | String c r =>
      if Ascii.eqb c LF then String CR (String LF (crlf r))
      else String c (crlf r)
  end.

(** A trimmed line the parsing loop passes over: neither a vertex nor a
    face record. *)
Definition ignored_line (line : string) : bool :=
  negb (is_vertex_line line) && negb (is_face_line line).

(** How many face lines have [n] references. *)
Definition count_arity (n : nat) (faces : list string) : nat :=
  List.length
    (filter (fun f => (List.length (references f) =? n)%nat) faces).

(** Sample files. *)
Definition commented_triangle : string :=
  "# a triangle" ++ nl ++ "v 0 0 0" ++ nl ++ "vn 0 0 1" ++ nl ++ "v 4 0 0"
  ++ nl ++ "v 0 2 0" ++ nl ++ "f 1/1/1 2/2/1 3/3/1".
Definition one_quad : string :=
  "v 0 0 0" ++ nl ++ "v 1 0 0" ++ nl ++ "v 1 1 0" ++ nl ++ "v 0 1 0" ++ nl
  ++ "f 1 2 3 4" ++ nl ++ "f 1 2 3".

(** *** The bounding box of a mesh, axis by axis *)

Definition no_finite (l : list number) : Prop :=
  Forall (fun x => is_finite x = false) l.

(** The coordinates of the vertices on axis [j]. *)
Definition axis_coordinates (vs : list vec3) (j : nat) : list number :=
  map (fun p => axis p j) vs.

(** [Math.min] / [Math.max] over a list, seeded with its first entry. *)
Definition least (l : list number) : number := fold_left min l (hd NaN l).
Definition greatest (l : list number) : number := fold_left max l (hd NaN l).

(** Centre and extent of the vertices on axis [j], the centre of the mesh
    and its largest extent. *)
Definition axis_center (vs : list vec3) (j : nat) : number :=
  (greatest (axis_coordinates vs j) + least (axis_coordinates vs j)) / two.

Definition axis_extent (vs : list vec3) (j : nat) : number :=
  greatest (axis_coordinates vs j) - least (axis_coordinates vs j).

Definition mesh_center (vs : list vec3) : vec3 :=
  Vec3 (axis_center vs 0) (axis_center vs 1) (axis_center vs 2).

Definition mesh_range (vs : list vec3) : number :=
  max (max (axis_extent vs 0) (axis_extent vs 1)) (axis_extent vs 2).

(** The entries of a position array that belong to axis [j]. *)
Fixpoint axis_entries (positions : list number) (j : nat) : list number :=
  match positions with
  | a :: b :: c :: rest => axis (Vec3 a b c) j :: axis_entries rest j
  | _ => []
  end.

(** [m] is an entry of [l] that no entry of [l] is below (above). *)
Definition is_least (m : number) (l : list number) : Prop :=
  In m l /\ Forall (fun x => leb m x = true) l.

Definition is_greatest (m : number) (l : list number) : Prop :=
  In m l /\ Forall (fun x => leb x m = true) l.

(** The positions have an axis-aligned bounding box, from [lo] to [hi],
    whose centre is the origin and whose longest side is 2. *)
Definition centered_with_span_two (positions : list number) : Prop :=
  exists lo hi : vec3,
    (forall j, (j < 3)%nat ->
       is_least (axis lo j) (axis_entries positions j)
       /\ is_greatest (axis hi j) (axis_entries positions j)
       /\ (axis hi j + axis lo j) / two = zero)
    /\ max (max (axis hi 0 - axis lo 0) (axis hi 1 - axis lo 1))
           (axis hi 2 - axis lo 2) = two.

(** Sample files. *)
Definition infinite_corner : string := "v Infinity 0 0" ++ nl ++ "v 0 0 0".
Definition tenths : string := "v 0.1 0 0" ++ nl ++ "v 0.3 0 0".
Definition far_corners : string := "v 1e308 0 0" ++ nl ++ "v -1e308 0 0".
Definition far_point : string := "v 1e308 1e308 1e308".

(** *** The normalization of load in binary64 arithmetic

    The same statements as [center_of], [range_of], [apply_normalization]
    and [normalization], every operation rounded as JavaScript rounds it.
    [Math.min] and [Math.max] return one of their arguments and round
    nothing. *)

Definition center_of_binary64 (mn mx : vec3) : vec3 :=
  Vec3 (div64 (add64 (v0 mx) (v0 mn)) two)
       (div64 (add64 (v1 mx) (v1 mn)) two)
       (div64 (add64 (v2 mx) (v2 mn)) two).

Definition range_of_binary64 (mn mx : vec3) : number :=
  max (max (sub64 (v0 mx) (v0 mn)) (sub64 (v1 mx) (v1 mn)))
      (sub64 (v2 mx) (v2 mn)).

Fixpoint apply_normalization_binary64 (vs : list number) (center : vec3)
  (range : number) : list number :=
  match vs with
  | [] => []
  | a :: b :: c :: rest =>
      div64 (sub64 a (v0 center)) (div64 range two)
      :: div64 (sub64 b (v1 center)) (div64 range two)
      :: div64 (sub64 c (v2 center)) (div64 range two)
      :: apply_normalization_binary64 rest center range
  | [a; b] =>
      [ div64 (sub64 a (v0 center)) (div64 range two);
        div64 (sub64 b (v1 center)) (div64 range two);
        div64 (sub64 NaN (v2 center)) (div64 range two) ]
  | [a] =>
      [ div64 (sub64 a (v0 center)) (div64 range two);
        div64 (sub64 NaN (v1 center)) (div64 range two);
        div64 (sub64 NaN (v2 center)) (div64 range two) ]
  end.

Definition normalization_binary64 (vertices : list number) : list number :=
  let '(mn, mx) := bounds vertices in
  let center := center_of_binary64 mn mx in
  let range := range_of_binary64 mn mx in
  apply_normalization_binary64 vertices center range.

(** The positions load returns in binary64 arithmetic: parseFloat gives
    the binary64 value nearest to the decimal it reads. *)
Definition load_positions_binary64 (contents : string) : list number :=
  normalization_binary64 (map r64 (raw_vertices contents)).

(** The vertex of a line, the centre and the largest extent of a mesh and
    the vertex the last loop makes of one, in binary64 arithmetic. *)
Definition vertex_of_line_binary64 (line : string) : vec3 :=
  Vec3 (r64 (v0 (vertex_of_line line))) (r64 (v1 (vertex_of_line line)))
       (r64 (v2 (vertex_of_line line))).

Definition axis_center_binary64 (vs : list vec3) (j : nat) : number :=
  div64 (add64 (greatest (axis_coordinates vs j))
               (least (axis_coordinates vs j))) two.

Definition axis_extent_binary64 (vs : list vec3) (j : nat) : number :=
  sub64 (greatest (axis_coordinates vs j)) (least (axis_coordinates vs j)).

Definition mesh_center_binary64 (vs : list vec3) : vec3 :=
  Vec3 (axis_center_binary64 vs 0) (axis_center_binary64 vs 1)
       (axis_center_binary64 vs 2).

Definition mesh_range_binary64 (vs : list vec3) : number :=
  max (max (axis_extent_binary64 vs 0) (axis_extent_binary64 vs 1))
      (axis_extent_binary64 vs 2).

Definition normalize_vertex_binary64 (center : vec3) (range : number)
  (p : vec3) : vec3 :=
  Vec3 (div64 (sub64 (v0 p) (v0 center)) (div64 range two))
       (div64 (sub64 (v1 p) (v1 center)) (div64 range two))
       (div64 (sub64 (v2 p) (v2 center)) (div64 range two)).

End OBJLoader.

(* ================================================================== *)
(** ** The glMatrix functions and the input state the app uses *)

Module GlMatrix.

Local Open Scope js_scope.

(** A 4x4 matrix as glMatrix stores it: sixteen entries, column-major, so
    that [m12], [m13], [m14] is the translation column. *)
Record mat4 : Type := Mat4 {
  m0 : number; m1 : number; m2 : number; m3 : number;
  m4 : number; m5 : number; m6 : number; m7 : number;
  m8 : number; m9 : number; m10 : number; m11 : number;
  m12 : number; m13 : number; m14 : number; m15 : number }.

(** Modelled from the spec: js/lib/glmatrix/mat4.js is not part of the
    sources.  [mat4.create()] is the identity matrix. *)
Definition mat4_create : mat4 :=
  Mat4 one zero zero zero
       zero one zero zero
       zero zero one zero
       zero zero zero one.

(** Modelled from the spec: js/lib/glmatrix/vec3.js is not part of the
    sources.  [vec3.create()] is the zero vector. *)
Definition vec3_create : vec3 := Vec3 zero zero zero.

(** Modelled from the spec: [vec3.subtract(out, a, b)] leaves [a - b] in
    [out].  Here and below the entries are the exact results; what an
    [out] made by [vec3.create()] or [mat4.create()] keeps of them is
    rounded ([vec3_subtract_binary64] and [store32] below). *)
Definition vec3_subtract (a b : vec3) : vec3 :=
  Vec3 (v0 a - v0 b) (v1 a - v1 b) (v2 a - v2 b).

(** Modelled from the spec: [vec3.add(out, a, b)] leaves [a + b] in [out]. *)
Definition vec3_add (a b : vec3) : vec3 :=
  Vec3 (v0 a + v0 b) (v1 a + v1 b) (v2 a + v2 b).

(** Modelled from the spec: [vec3.scaleAndAdd(out, a, b, scale)] leaves
    [a + b * scale] in [out]. *)
Definition vec3_scaleAndAdd (a b : vec3) (scale : number) : vec3 :=
  Vec3 (v0 a + v0 b * scale) (v1 a + v1 b * scale) (v2 a + v2 b * scale).

(** Modelled from the spec: [mat4.multiply(out, a, b)] leaves the matrix
    product [a * b] in [out]; column [j] of the product is [a] applied to
    column [j] of [b].  [out] may be [a] or [b]. *)
Definition mat4_multiply (a b : mat4) : mat4 :=
  let col (b0 b1 b2 b3 : number) : number * number * number * number :=
    ( b0 * m0 a + b1 * m4 a + b2 * m8 a + b3 * m12 a,
      b0 * m1 a + b1 * m5 a + b2 * m9 a + b3 * m13 a,
      b0 * m2 a + b1 * m6 a + b2 * m10 a + b3 * m14 a,
      b0 * m3 a + b1 * m7 a + b2 * m11 a + b3 * m15 a ) in
  let '(o0, o1, o2, o3) := col (m0 b) (m1 b) (m2 b) (m3 b) in
  let '(o4, o5, o6, o7) := col (m4 b) (m5 b) (m6 b) (m7 b) in
  let '(o8, o9, o10, o11) := col (m8 b) (m9 b) (m10 b) (m11 b) in
  let '(o12, o13, o14, o15) := col (m12 b) (m13 b) (m14 b) (m15 b) in
  Mat4 o0 o1 o2 o3 o4 o5 o6 o7 o8 o9 o10 o11 o12 o13 o14 o15.

(** Modelled from the spec: [mat4.fromScaling(out, v)] leaves the scaling
    matrix of [v] in [out]. *)
Definition mat4_fromScaling (v : vec3) : mat4 :=
  Mat4 (v0 v) zero zero zero
       zero (v1 v) zero zero
       zero zero (v2 v) zero
       zero zero zero one.

(** Modelled from the spec: [mat4.fromTranslation(out, v)] leaves the
    translation matrix of [v] in [out]. *)
Definition mat4_fromTranslation (v : vec3) : mat4 :=
  Mat4 one zero zero zero
       zero one zero zero
       zero zero one zero
       (v0 v) (v1 v) (v2 v) one.

(** The glMatrix functions that need square roots or trigonometry, or that
    no property below depends on.  Each takes the previous contents of its
    [out] argument first and gives the contents [out] has afterwards. *)
Class GlMatrixExt : Type := {
  mat4_fromRotation : mat4 -> number -> vec3 -> mat4;
  vec3_transformMat4 : vec3 -> vec3 -> mat4 -> vec3;
  vec3_normalize : vec3 -> vec3 -> vec3;
  vec3_cross : vec3 -> vec3 -> vec3 -> vec3;
  mat4_lookAt : mat4 -> vec3 -> vec3 -> vec3 -> mat4 }.

(** Modelled from the spec: js/input/input.js is not part of the sources.
    The input-device state is polled: which buttons and keys are down, and
    the pointer delta of the frame; reading it does not change it. *)
Record Input : Type := MkInput {
  button0 : bool;      (* primary *)
  button1 : bool;      (* middle *)
  button2 : bool;      (* secondary *)
  key_space : bool;
  mouseDx : number;
  mouseDy : number }.

Definition isMouseDown (i : Input) (n : nat) : bool :=
  match n with
  | 0%nat => button0 i
  | 1%nat => button1 i
  | 2%nat => button2 i
  | _ => false
  end.

Definition isKeyDown_space (i : Input) : bool := key_space i.
Definition getMouseDx (i : Input) : number := mouseDx i.
Definition getMouseDy (i : Input) : number := mouseDy i.

End GlMatrix.

Export GlMatrix.

(* ================================================================== *)
(** ** WebGlApp *)

Module WebGlApp.

Local Open Scope js_scope.

(** The fields of the app that updateCamera and updateSceneNode touch;
    [u_v] is the view matrix last handed to the shader. *)
Record app : Type := MkApp {
  eye : vec3;
  center : vec3;
  forward : vec3;
  right : vec3;
  up : vec3;
  view : mat4;
  u_v : mat4 }.

Definition set_eye (a : app) (e : vec3) : app :=
  MkApp e (center a) (forward a) (right a) (up a) (view a) (u_v a).

Definition set_center (a : app) (c : vec3) : app :=
  MkApp (eye a) c (forward a) (right a) (up a) (view a) (u_v a).

(** A scene node, as far as updateSceneNode is concerned: its local
    transformation. *)
Record SceneNode : Type := MkNode { transformation : mat4 }.

Definition five : number := of_Z 5.

(** *** What the properties of the camera and node updates are stated with *)

Definition finite_vec (v : vec3) : Prop :=
  is_finite (v0 v) = true /\ is_finite (v1 v) = true
  /\ is_finite (v2 v) = true.

Definition zoom_active (i : Input) : bool := isMouseDown i 2.

Definition rotate_active (i : Input) : bool :=
  isMouseDown i 0 && negb (isKeyDown_space i).

Definition pan_active (i : Input) : bool :=
  isMouseDown i 1 || (isMouseDown i 0 && isKeyDown_space i).

Definition node_active (i : Input) : bool :=
  zoom_active i || rotate_active i || pan_active i.

(** Squared distance between two points. *)
Definition dist2 (p q : vec3) : number :=
  let d := vec3_subtract p q in
  v0 d * v0 d + v1 d * v1 d + v2 d * v2 d.

(** [e'] lies on the ray from [c] through [e], strictly farther from [c]
    than [e] is. *)
Definition strictly_farther (c e e' : vec3) : Prop :=
  (exists k : Qc, (1 < k)%Qc
     /\ vec3_subtract e' c
        = Vec3 (v0 (vec3_subtract e c) * Fin k)
               (v1 (vec3_subtract e c) * Fin k)
               (v2 (vec3_subtract e c) * Fin k))
  /\ ltb (dist2 e c) (dist2 e' c) = true.

(** The vector the pan block adds: [-dx*panSpeed*right + dy*panSpeed*up]. *)
Definition pan_vector (a : app) (i : Input) (delta_time : number) : vec3 :=
  let panSpeed := two * delta_time in
  Vec3 (- getMouseDx i * panSpeed * v0 (right a)
        + getMouseDy i * panSpeed * v0 (up a))
       (- getMouseDx i * panSpeed * v1 (right a)
        + getMouseDy i * panSpeed * v1 (up a))
       (- getMouseDx i * panSpeed * v2 (right a)
        + getMouseDy i * panSpeed * v2 (up a)).

(** The translation column of a transformation. *)
Definition translation_column (m : mat4) : vec3 := Vec3 (m12 m) (m13 m) (m14 m).

Definition finite_mat (m : mat4) : Prop :=
  Forall (fun x => is_finite x = true)
    [ m0 m; m1 m; m2 m; m3 m; m4 m; m5 m; m6 m; m7 m;
      m8 m; m9 m; m10 m; m11 m; m12 m; m13 m; m14 m; m15 m ].

Definition num (n d : Z) : number := Fin (Q2Qc (n # Z.to_pos d)).

Definition vec (x y z : Z) : vec3 := Vec3 (of_Z x) (of_Z y) (of_Z z).

(** A camera two units in front of the origin, looking at it. *)
Definition camera_front : app :=
  MkApp (vec 0 0 2) (vec 0 0 0) (vec 0 0 1) (vec 1 0 0) (vec 0 1 0)
        mat4_create mat4_create.

(** A camera whose eye has reached its centre (a zoom by the factor 0
    leaves it there). *)
Definition camera_collapsed : app :=
  MkApp (vec 0 0 0) (vec 0 0 0) (vec 0 0 0) (vec 0 0 0) (vec 0 0 0)
        mat4_create mat4_create.

Definition no_input : Input := MkInput false false false false zero zero.

(** Secondary button held, the pointer moved down by one. *)
Definition drag_secondary : Input :=
  MkInput false false true false zero one.

(** Secondary and primary buttons held with the modifier key, the pointer
    moved by (1, 1). *)
Definition drag_secondary_primary_space : Input :=
  MkInput true false true true one one.

(** Middle button held, the pointer moved by (1, 1). *)
Definition drag_middle : Input := MkInput false true false false one one.

(** Secondary button held, the pointer moved up by one. *)
Definition drag_secondary_up : Input :=
  MkInput false false true false zero (of_Z (-1)).

Definition half : number := num 1 2.

(** A node placed at (3, 4, 5). *)
Definition node_translated : SceneNode :=
  MkNode (mat4_fromTranslation (vec 3 4 5)).

Section WithGlMatrix.

Context {G : GlMatrixExt}.

(** WebGlApp.updateViewSpaceVectors *)
Definition updateViewSpaceVectors (a : app) : app :=
  let forward' :=
    vec3_normalize vec3_create (vec3_subtract (eye a) (center a)) in
  let right' :=
    vec3_normalize vec3_create
      (vec3_cross vec3_create (Vec3 zero one zero) forward') in
  let up' :=
    vec3_normalize vec3_create (vec3_cross vec3_create forward' right') in
  MkApp (eye a) (center a) forward' right' up' (view a) (u_v a).

(** The zoom block of updateCamera. *)
Definition camera_zoom (a : app) (i : Input) (delta_time : number) : app :=
  let zoomSpeed := two * delta_time in
  let dy := getMouseDy i in
  let direction := vec3_subtract (eye a) (center a) in
  let scaleFactor := one + dy * zoomSpeed in
  set_eye a (vec3_scaleAndAdd (center a) direction scaleFactor).

(** The rotate block of updateCamera. *)
Definition camera_rotate (a : app) (i : Input) (delta_time : number) : app :=
  let sensitivity := two * delta_time in
  let dx := getMouseDx i in
  let dy := getMouseDy i in
  let offset := vec3_subtract (eye a) (center a) in
  let rotationY := mat4_fromRotation mat4_create (- dx * sensitivity) (up a) in
  let offset := vec3_transformMat4 offset offset rotationY in
  let rotationX :=
    mat4_fromRotation mat4_create (- dy * sensitivity) (right a) in
  let offset := vec3_transformMat4 offset offset rotationX in
  set_eye a (vec3_add (center a) offset).

(** The pan block of updateCamera. *)
Definition camera_pan (a : app) (i : Input) (delta_time : number) : app :=
  let panSpeed := two * delta_time in
  let dx := getMouseDx i in
  let dy := getMouseDy i in
  let p := vec3_create in
  let p := vec3_scaleAndAdd p (right a) (- dx * panSpeed) in
  let p := vec3_scaleAndAdd p (up a) (dy * panSpeed) in
  let a := set_eye a (vec3_add (eye a) p) in
  set_center a (vec3_add (center a) p).

(** WebGlApp.updateCamera: three independent [if] blocks, then the view
    matrix is rebuilt when one of them ran. *)
Definition updateCamera (a : app) (i : Input) (delta_time : number) : app :=
  let view_dirty := false in
  let '(a, view_dirty) :=
    if isMouseDown i 2 then (camera_zoom a i delta_time, true)
    else (a, view_dirty) in
  let '(a, view_dirty) :=
    if isMouseDown i 0 && negb (isKeyDown_space i)
    then (camera_rotate a i delta_time, true)
    else (a, view_dirty) in
  let '(a, view_dirty) :=
    if isMouseDown i 1 || (isMouseDown i 0 && isKeyDown_space i)
    then (camera_pan a i delta_time, true)
    else (a, view_dirty) in
  if view_dirty then
    let a := updateViewSpaceVectors a in
    let view' := mat4_lookAt (view a) (eye a) (center a) (up a) in
    MkApp (eye a) (center a) (forward a) (right a) (up a) view' view'
  else a.

(** WebGlApp.updateSceneNode: the node after the call.  The three matrices
    start as the identity; each [if] block that runs replaces one. *)
Definition updateSceneNode (a : app) (node : SceneNode) (i : Input)
  (delta_time : number) : SceneNode :=
  let node_dirty := false in
  let translation := mat4_create in
  let rotation := mat4_create in
  let scale := mat4_create in
  let '(scale, node_dirty) :=
    if isMouseDown i 2 then
      let s := one + getMouseDy i * delta_time in
      (mat4_fromScaling (Vec3 s s s), true)
    else (scale, node_dirty) in
  let '(rotation, node_dirty) :=
    if isMouseDown i 0 && negb (isKeyDown_space i) then
      let sensitivity := two * delta_time in
      let dx := getMouseDx i in
      let dy := getMouseDy i in
      let rotY := mat4_fromRotation mat4_create (dx * sensitivity) (up a) in
      let rotX := mat4_fromRotation mat4_create (dy * sensitivity) (right a) in
      (mat4_multiply rotY rotX, true)
    else (rotation, node_dirty) in
  let '(translation, node_dirty) :=
    if isMouseDown i 1 || (isMouseDown i 0 && isKeyDown_space i) then
      let speed := five * delta_time in
      let dx := getMouseDx i in
      let dy := getMouseDy i in
      let t := vec3_create in
      let t := vec3_scaleAndAdd t (right a) (dx * speed) in
      let t := vec3_scaleAndAdd t (up a) (- dy * speed) in
      (mat4_fromTranslation t, true)
    else (translation, node_dirty) in
  if node_dirty then
    let transformation := transformation node in
    let transformation := mat4_multiply translation transformation in
    let transformation := mat4_multiply rotation transformation in
    let transformation := mat4_multiply transformation scale in
    MkNode transformation
  else node.

(** The camera the constructor of WebGlApp leaves: eye and center as
    written there, the view-space vectors and the view matrix derived from
    them. *)
Definition initial_app : app :=
  let a :=
    updateViewSpaceVectors
      (MkApp (Vec3 two half (of_Z (-2))) (vec 0 0 0)
             vec3_create vec3_create vec3_create mat4_create mat4_create) in
  let view' := mat4_lookAt mat4_create (eye a) (center a) (up a) in
  MkApp (eye a) (center a) (forward a) (right a) (up a) view' view'.

(** The eye/center updates of updateCamera alone: every block whose
    buttons are held runs, in the order zoom, rotate, pan. *)
Definition camera_modes (a : app) (i : Input) (delta_time : number) : app :=
  let a := if zoom_active i then camera_zoom a i delta_time else a in
  let a := if rotate_active i then camera_rotate a i delta_time else a in
  if pan_active i then camera_pan a i delta_time else a.

(** What the specification describes instead: the first mode whose buttons
    are held, in the order zoom, rotate, pan, and only that one. *)
Definition camera_exclusive (a : app) (i : Input) (delta_time : number)
  : app :=
  if zoom_active i then camera_zoom a i delta_time
  else if rotate_active i then camera_rotate a i delta_time
  else if pan_active i then camera_pan a i delta_time
  else a.

Definition one_mode_per_call (a : app) (i : Input) (delta_time : number)
  : Prop :=
  eye (updateCamera a i delta_time) = eye (camera_exclusive a i delta_time)
  /\ center (updateCamera a i delta_time)
     = center (camera_exclusive a i delta_time).

(** The three matrices updateSceneNode composes. *)
Definition scale_matrix (i : Input) (delta_time : number) : mat4 :=
  if zoom_active i then
    let s := one + getMouseDy i * delta_time in
    mat4_fromScaling (Vec3 s s s)
  else mat4_create.

Definition rotation_matrix (a : app) (i : Input) (delta_time : number)
  : mat4 :=
  if rotate_active i then
    let rotY :=
      mat4_fromRotation mat4_create (getMouseDx i * (two * delta_time))
        (up a) in
    let rotX :=
      mat4_fromRotation mat4_create (getMouseDy i * (two * delta_time))
        (right a) in
    mat4_multiply rotY rotX
  else mat4_create.

Definition translation_matrix (a : app) (i : Input) (delta_time : number)
  : mat4 :=
  if pan_active i then
    let speed := five * delta_time in
    mat4_fromTranslation
      (Vec3 (getMouseDx i * speed * v0 (right a)
             + - getMouseDy i * speed * v0 (up a))
            (getMouseDx i * speed * v1 (right a)
             + - getMouseDy i * speed * v1 (up a))
            (getMouseDx i * speed * v2 (right a)
             + - getMouseDy i * speed * v2 (up a)))
  else mat4_create.

(** The derived fields agree with eye and center: the view-space vectors
    are the ones updateViewSpaceVectors computes, the view matrix is a
    lookAt of eye, center and up, and the shader holds that view matrix. *)
Definition camera_consistent (a : app) : Prop :=
  forward a = vec3_normalize vec3_create (vec3_subtract (eye a) (center a))
  /\ right a
     = vec3_normalize vec3_create
         (vec3_cross vec3_create (Vec3 zero one zero) (forward a))
  /\ up a
     = vec3_normalize vec3_create
         (vec3_cross vec3_create (forward a) (right a))
  /\ (exists out, view a = mat4_lookAt out (eye a) (center a) (up a))
  /\ u_v a = view a.

End WithGlMatrix.

(** A statement about the app that holds whatever the functions of
    [GlMatrixExt] compute. *)
Definition for_every_glmatrix (P : GlMatrixExt -> Prop) : Prop :=
  forall G : GlMatrixExt, P G.

(** Some instance, to run the app on sample inputs: every function leaves
    its [out] argument as it was. *)
Definition glmatrix_idle : GlMatrixExt :=
  {| mat4_fromRotation := fun out _ _ => out;
     vec3_transformMat4 := fun out _ _ => out;
     vec3_normalize := fun out _ => out;
     vec3_cross := fun out _ _ => out;
     mat4_lookAt := fun out _ _ _ => out |}.

(** [-2^500 <= x <= 2^500]: a pointer delta or a frame time of a size at
    which the products of the camera update are far from overflow. *)
Definition huge : number := of_Z (2 ^ 500).

Definition moderate (x : number) : bool := leb (- huge) x && leb x huge.

(** *** updateCamera in binary64 arithmetic

    The same statements as [updateViewSpaceVectors], [camera_zoom],
    [camera_rotate], [camera_pan] and [updateCamera], every operation
    rounded as JavaScript rounds it.  [this.eye] and [this.center] are
    plain arrays, whose entries are binary64 values. *)

(** Modelled from the spec: js/lib/glmatrix/vec3.js is not part of the
    sources.  A vector made by [vec3.create()] is a Float32Array, the
    array type glMatrix uses unless told otherwise: an entry keeps the
    binary32 value nearest to what is written to it. *)
Definition store32 (v : vec3) : vec3 :=
  Vec3 (r32 (v0 v)) (r32 (v1 v)) (r32 (v2 v)).

(** Modelled from the spec: the values [vec3.subtract], [vec3.add] and
    [vec3.scaleAndAdd] compute, before they are written to [out]. *)
Definition vec3_subtract_binary64 (a b : vec3) : vec3 :=
  Vec3 (sub64 (v0 a) (v0 b)) (sub64 (v1 a) (v1 b)) (sub64 (v2 a) (v2 b)).

Definition vec3_add_binary64 (a b : vec3) : vec3 :=
  Vec3 (add64 (v0 a) (v0 b)) (add64 (v1 a) (v1 b)) (add64 (v2 a) (v2 b)).

Definition vec3_scaleAndAdd_binary64 (a b : vec3) (scale : number) : vec3 :=
  Vec3 (add64 (v0 a) (mul64 (v0 b) scale))
       (add64 (v1 a) (mul64 (v1 b) scale))
       (add64 (v2 a) (mul64 (v2 b) scale)).

(** The zoom block of updateCamera. *)
Definition camera_zoom_binary64 (a : app) (i : Input) (delta_time : number)
  : app :=
  let zoomSpeed := mul64 two delta_time in
  let dy := getMouseDy i in
  let direction := store32 (vec3_subtract_binary64 (eye a) (center a)) in
  let scaleFactor := add64 one (mul64 dy zoomSpeed) in
  set_eye a (vec3_scaleAndAdd_binary64 (center a) direction scaleFactor).

(** The pan block of updateCamera. *)
Definition camera_pan_binary64 (a : app) (i : Input) (delta_time : number)
  : app :=
  let panSpeed := mul64 two delta_time in
  let dx := getMouseDx i in
  let dy := getMouseDy i in
  let p := vec3_create in
  let p :=
    store32 (vec3_scaleAndAdd_binary64 p (right a) (mul64 (- dx) panSpeed)) in
  let p :=
    store32 (vec3_scaleAndAdd_binary64 p (up a) (mul64 dy panSpeed)) in
  let a := set_eye a (vec3_add_binary64 (eye a) p) in
  set_center a (vec3_add_binary64 (center a) p).

(** The factor of the zoom block and the vector the pan block adds, as
    they are computed. *)
Definition zoom_factor_binary64 (i : Input) (delta_time : number) : number :=
  add64 one (mul64 (getMouseDy i) (mul64 two delta_time)).

Definition pan_vector_binary64 (a : app) (i : Input) (delta_time : number)
  : vec3 :=
  let panSpeed := mul64 two delta_time in
  store32
    (vec3_scaleAndAdd_binary64
       (store32
          (vec3_scaleAndAdd_binary64 vec3_create (right a)
             (mul64 (- getMouseDx i) panSpeed)))
       (up a) (mul64 (getMouseDy i) panSpeed)).

(** A vector of finite binary64 values. *)
Definition binary64_vec (v : vec3) : Prop :=
  finite_vec v
  /\ r64 (v0 v) = v0 v /\ r64 (v1 v) = v1 v /\ r64 (v2 v) = v2 v.

Section Binary64Camera.

Context {G : GlMatrixExt}.

(** WebGlApp.updateViewSpaceVectors *)
Definition updateViewSpaceVectors_binary64 (a : app) : app :=
  let forward' :=
    vec3_normalize vec3_create
      (store32 (vec3_subtract_binary64 (eye a) (center a))) in
  let right' :=
    vec3_normalize vec3_create
      (vec3_cross vec3_create (Vec3 zero one zero) forward') in
  let up' :=
    vec3_normalize vec3_create (vec3_cross vec3_create forward' right') in
  MkApp (eye a) (center a) forward' right' up' (view a) (u_v a).

(** The rotate block of updateCamera. *)
Definition camera_rotate_binary64 (a : app) (i : Input)
  (delta_time : number) : app :=
  let sensitivity := mul64 two delta_time in
  let dx := getMouseDx i in
  let dy := getMouseDy i in
  let offset := store32 (vec3_subtract_binary64 (eye a) (center a)) in
  let rotationY :=
    mat4_fromRotation mat4_create (mul64 (- dx) sensitivity) (up a) in
  let offset := vec3_transformMat4 offset offset rotationY in
  let rotationX :=
    mat4_fromRotation mat4_create (mul64 (- dy) sensitivity) (right a) in
  let offset := vec3_transformMat4 offset offset rotationX in
  set_eye a (vec3_add_binary64 (center a) offset).

(** WebGlApp.updateCamera *)
Definition updateCamera_binary64 (a : app) (i : Input)
  (delta_time : number) : app :=
  let view_dirty := false in
  let '(a, view_dirty) :=
    if isMouseDown i 2 then (camera_zoom_binary64 a i delta_time, true)
    else (a, view_dirty) in
  let '(a, view_dirty) :=
    if isMouseDown i 0 && negb (isKeyDown_space i)
    then (camera_rotate_binary64 a i delta_time, true)
    else (a, view_dirty) in
  let '(a, view_dirty) :=
    if isMouseDown i 1 || (isMouseDown i 0 && isKeyDown_space i)
    then (camera_pan_binary64 a i delta_time, true)
    else (a, view_dirty) in
  if view_dirty then
    let a := updateViewSpaceVectors_binary64 a in
    let view' := mat4_lookAt (view a) (eye a) (center a) (up a) in
    MkApp (eye a) (center a) (forward a) (right a) (up a) view' view'
  else a.

End Binary64Camera.




(** A frame of [2^-60] seconds. *)
Definition instant : number := d64 1 (2 ^ 60).

(** A camera that looks at the origin from (2.4, 0.6, -2.4); a zoom frame
    reads no other field. *)
Definition camera_tenths : app :=
  MkApp (Vec3 (d64 24 10) (d64 6 10) (d64 (-24) 10)) (vec 0 0 0)
        (vec 0 0 0) (vec 0 0 0) (vec 0 0 0) mat4_create mat4_create.

(** Secondary button held, the pointer still. *)
Definition still_secondary : Input :=
  MkInput false false true false zero zero.

(** Middle button held, the pointer still. *)
Definition still_middle : Input :=
  MkInput false true false false zero zero.

End WebGlApp.

(* ================================================================== *)
(** * Properties *)

(** ** Facts about numbers *)

Module JsNumberFacts.

Lemma this_plus (a b : Qc) : (this (a + b)%Qc == this a + this b)%Q.
Proof. unfold Qcplus, Q2Qc; cbn [this]; apply Qred_correct. Qed.

Lemma this_mult (a b : Qc) : (this (a * b)%Qc == this a * this b)%Q.
Proof. unfold Qcmult, Q2Qc; cbn [this]; apply Qred_correct. Qed.

Lemma this_opp (a : Qc) : (this (- a)%Qc == - this a)%Q.
Proof. unfold Qcopp, Q2Qc; cbn [this]; apply Qred_correct. Qed.

Lemma this_minus (a b : Qc) : (this (a - b)%Qc == this a - this b)%Q.
Proof. unfold Qcminus. rewrite this_plus, this_opp. reflexivity. Qed.

Lemma this_inv (a : Qc) : (this (/ a)%Qc == / this a)%Q.
Proof. unfold Qcinv, Q2Qc; cbn [this]; apply Qred_correct. Qed.

Lemma this_Q2Qc (q : Q) : (this (Q2Qc q) == q)%Q.
Proof. unfold Q2Qc; cbn [this]; apply Qred_correct. Qed.

(** Turns an order statement on [Qc] into one on [Q]. *)
Ltac to_Q :=
  unfold Qclt, Qcle, Qcdiv in *;
  rewrite ?this_plus, ?this_minus, ?this_mult, ?this_opp, ?this_inv,
          ?this_Q2Qc in *.

Lemma Qc_eqb_eq (a b : Qc) : Qc_eqb a b = true <-> a = b.
Proof.
  unfold Qc_eqb. rewrite Qeq_bool_iff. split.
  - apply Qc_is_canon.
  - intros ->. reflexivity.
Qed.

Lemma Qc_eqb_neq (a b : Qc) : Qc_eqb a b = false <-> a <> b.
Proof.
  rewrite <- Qc_eqb_eq. destruct (Qc_eqb a b); split; congruence.
Qed.

Lemma Qc_leb_le (a b : Qc) : Qc_leb a b = true <-> (a <= b)%Qc.
Proof. unfold Qc_leb, Qcle. apply Qle_bool_iff. Qed.

Lemma Qc_leb_gt (a b : Qc) : Qc_leb a b = false <-> (b < a)%Qc.
Proof.
  unfold Qc_leb, Qclt. split; intros H.
  - apply Qnot_le_lt. intros L. apply Qle_bool_iff in L. congruence.
  - destruct (Qle_bool a b) eqn:E; [|reflexivity].
    apply Qle_bool_iff in E. exfalso. exact (Qlt_not_le _ _ H E).
Qed.

Lemma Qc_ltb_lt (a b : Qc) : Qc_ltb a b = true <-> (a < b)%Qc.
Proof.
  unfold Qc_ltb. rewrite negb_true_iff. apply (Qc_leb_gt b a).
Qed.

Lemma eqb_eq (x y : number) : eqb x y = true -> x = y.
Proof.
  destruct x, y; cbn; try congruence.
  intros H. apply Qc_eqb_eq in H. congruence.
Qed.

Lemma list_eqb_eq (xs ys : list number) : list_eqb xs ys = true -> xs = ys.
Proof.
  revert ys. induction xs as [|x xs IH]; intros [|y ys]; cbn; try congruence.
  rewrite andb_true_iff. intros [H1 H2].
  apply eqb_eq in H1. apply IH in H2. congruence.
Qed.

Lemma Fin_inj (a b : Qc) : Fin a = Fin b -> a = b.
Proof.
  intros H.
  exact (f_equal (fun x => match x with Fin q => q | _ => a end) H).
Qed.

Lemma eqb_refl (x : number) : eqb x x = true.
Proof. destruct x; cbn; try reflexivity. now apply Qc_eqb_eq. Qed.

Lemma eqb_neq (x y : number) : eqb x y = false -> x <> y.
Proof. intros H E. subst y. rewrite eqb_refl in H. discriminate. Qed.

Lemma finite_inv (x : number) : is_finite x = true -> exists q, x = Fin q.
Proof. destruct x; cbn; try discriminate. eauto. Qed.



Lemma sub_nan_l (x : number) : sub NaN x = NaN.
Proof. reflexivity. Qed.




End JsNumberFacts.

(* ================================================================== *)
(** ** Rounding *)

Module Binary64Facts.

Import JsNumberFacts.

(** [round64] rounds as the binary64 arithmetic of the kernel does: on
    quotients that are not binary fractions, on a sum, a difference, a
    product and a quotient of such values, where the result passes the
    largest value, and among the subnormal values (a tie and a value
    above it). *)
Lemma round64_rounds_as_the_kernel :
  of_float (float_ratio 1 10) = d64 1 10
  /\ of_float (float_ratio 2 3) = d64 2 3
  /\ of_float (PrimFloat.add (float_ratio 1 10) (float_ratio 2 10))
     = add64 (d64 1 10) (d64 2 10)
  /\ of_float (PrimFloat.sub (float_ratio 3 10) (float_ratio 1 10))
     = sub64 (d64 3 10) (d64 1 10)
  /\ of_float (PrimFloat.mul (float_ratio 1 3) (float_ratio 1 3))
     = mul64 (d64 1 3) (d64 1 3)
  /\ of_float (PrimFloat.div (float_ratio 1 10) (float_ratio 3 10))
     = div64 (d64 1 10) (d64 3 10)
  /\ of_float (PrimFloat.add (FloatOps.Z.ldexp (float_ratio 1 1) 1023)
                             (FloatOps.Z.ldexp (float_ratio 1 1) 1023))
     = add64 (d64 (2 ^ 1023) 1) (d64 (2 ^ 1023) 1)
  /\ of_float (PrimFloat.div (FloatOps.Z.ldexp (float_ratio 1 1) (-1074))
                             (float_ratio 2 1))
     = div64 (d64 1 (2 ^ 1074)) two
  /\ of_float (PrimFloat.mul (FloatOps.Z.ldexp (float_ratio 1 1) (-1074))
                             (float_ratio 3 2))
     = mul64 (d64 1 (2 ^ 1074)) (d64 3 2).
Proof.
  repeat split; apply eqb_eq; vm_compute; reflexivity.
Qed.

Lemma r64_not_finite (x : number) : is_finite x = false -> r64 x = x.
Proof. destruct x; [discriminate | reflexivity..]. Qed.

Lemma min_same (x : number) : min x x = x.
Proof.
  destruct x as [a| | |]; try reflexivity.
  unfold min, leb. now destruct (Qc_leb a a).
Qed.

Lemma max_same (x : number) : max x x = x.
Proof.
  destruct x as [a| | |]; try reflexivity.
  unfold max, leb. now destruct (Qc_leb a a).
Qed.

Lemma sub_same (x : number) :
  is_finite x = true -> sub x x = zero /\ sub64 x x = zero.
Proof.
  intros F. destruct (finite_inv _ F) as [a ->].
  assert (E : sub (Fin a) (Fin a) = zero).
  { unfold sub, neg, add, zero, of_Z. f_equal. apply Qcplus_opp_r. }
  split; [exact E|]. unfold sub64. rewrite E. reflexivity.
Qed.

Lemma mul64_zero_l (x : number) : is_finite x = true -> mul64 zero x = zero.
Proof.
  intros F. destruct (finite_inv _ F) as [k ->].
  unfold mul64, mul, zero, of_Z.
  replace (Q2Qc (inject_Z 0) * k)%Qc with (Q2Qc (inject_Z 0)); [reflexivity|].
  symmetry. apply Qcmult_0_l.
Qed.

Lemma add64_zero_r (x : number) :
  is_finite x = true -> r64 x = x -> add64 x zero = x.
Proof.
  intros F R. destruct (finite_inv _ F) as [c ->].
  unfold add64, add, zero, of_Z.
  replace (c + Q2Qc (inject_Z 0))%Qc with c; [exact R|].
  symmetry. apply Qcplus_0_r.
Qed.

Lemma half_of_zero : div zero two = zero /\ div64 zero two = zero.
Proof. split; apply eqb_eq; vm_compute; reflexivity. Qed.

Lemma quotient_by_zero (x : number) : is_finite (div x zero) = false.
Proof.
  destruct x as [a| | |]; try reflexivity.
  unfold div, zero, of_Z.
  replace (Qc_eqb (Q2Qc (inject_Z 0)) 0) with true by reflexivity.
  now destruct (Qc_sign a).
Qed.

Lemma quotient64_by_zero (x : number) : is_finite (div64 x zero) = false.
Proof.
  unfold div64. rewrite r64_not_finite; apply quotient_by_zero.
Qed.

(** What a Float32Array keeps of 0.1 and of 1.1, of two ties, of a value
    past the largest one and of a tie between 0 and the least value. *)
Lemma round32_samples :
  f32 1 10 = Fin (Q2Qc (13421773 # 134217728))
  /\ f32 11 10 = Fin (Q2Qc (9227469 # 8388608))
  /\ f32 (2 ^ 24 + 1) (2 ^ 24) = one
  /\ f32 (2 ^ 24 + 3) (2 ^ 24) = Fin (Q2Qc (2 ^ 22 + 1 # 2 ^ 22))
  /\ f32 (2 ^ 128) 1 = PInf
  /\ f32 1 (2 ^ 150) = zero.
Proof.
  repeat split; apply eqb_eq; vm_compute; reflexivity.
Qed.

End Binary64Facts.

(* ================================================================== *)
(** ** OBJLoader: parsing *)

Module OBJLoaderParsing.

Import OBJLoader JsNumberFacts.

(** Proves a closed equation between lists of numbers by evaluation. *)
Ltac eval_numbers := apply list_eqb_eq; vm_compute; reflexivity.

Lemma parseFace_loop_map (rest : list string) (acc : list number) :
  parseFace_loop rest acc = acc ++ map convert_reference rest.
Proof.
  revert acc. induction rest as [|p rest IH]; intros acc; cbn [parseFace_loop map].
  - now rewrite app_nil_r.
  - rewrite IH, <- app_assoc. reflexivity.
Qed.

Lemma parseFace_indices (face_string : string) :
  parseFace_loop (tl (split_ws (trim face_string))) []
  = map convert_reference (references face_string).
Proof. now rewrite parseFace_loop_map. Qed.

Lemma parseFace_quad (face_string : string) :
  List.length (references face_string) = 4%nat ->
  exists a b c d,
    map convert_reference (references face_string) = [a; b; c; d]
    /\ parseFace face_string = [a; b; c; a; c; d].
Proof.
  intros H. unfold parseFace. rewrite parseFace_indices.
  destruct (map convert_reference (references face_string))
    as [|a [|b [|c [|d [|e l]]]]] eqn:E;
    apply (f_equal (@List.length _)) in E; rewrite length_map, H in E;
    cbn in E; try discriminate.
  exists a, b, c, d. split; reflexivity.
Qed.

Lemma parseFace_other (face_string : string) :
  List.length (references face_string) <> 4%nat ->
  parseFace face_string = map convert_reference (references face_string).
Proof.
  intros H. unfold parseFace. rewrite parseFace_indices, length_map.
  apply Nat.eqb_neq in H. now rewrite H.
Qed.

Lemma parseFace_length (face_string : string) :
  List.length (parseFace face_string)
  = if (List.length (references face_string) =? 4)%nat then 6%nat
    else List.length (references face_string).
Proof.
  destruct (Nat.eqb_spec (List.length (references face_string)) 4) as [E|E].
  - destruct (parseFace_quad _ E) as (a & b & c & d & _ & ->). reflexivity.
  - now rewrite parseFace_other, length_map.
Qed.

Lemma parse_lines_spec (lines : list string) (vertices indices : list number) :
  parse_lines lines vertices indices
  = ( vertices ++ flat_map parseVertex (filter is_vertex_line (map trim lines)),
      indices ++ flat_map parseFace (filter is_face_line (map trim lines)) ).
Proof.
  revert vertices indices.
  induction lines as [|line lines IH]; intros vertices indices.
  - cbn. now rewrite !app_nil_r.
  - cbn [parse_lines map filter]. unfold is_vertex_line, is_face_line.
    destruct (startsWith (trim line) "v ") eqn:V; cbn [negb andb].
    + rewrite IH. cbn [flat_map]. now rewrite <- app_assoc.
    + destruct (startsWith (trim line) "f ") eqn:F.
      * rewrite IH. cbn [flat_map]. now rewrite <- app_assoc.
      * apply IH.
Qed.

Lemma raw_vertices_spec (contents : string) :
  raw_vertices contents = flat_map parseVertex (vertex_lines contents).
Proof. unfold raw_vertices. now rewrite parse_lines_spec. Qed.

Lemma load_spec (contents : string) :
  load contents
  = ( normalization (raw_vertices contents),
      flat_map parseFace (face_lines contents) ).
Proof.
  unfold load, raw_vertices. now rewrite parse_lines_spec.
Qed.

Lemma raw_vertices_length (contents : string) :
  List.length (raw_vertices contents)
  = (3 * List.length (vertex_lines contents))%nat.
Proof.
  rewrite raw_vertices_spec.
  induction (vertex_lines contents) as [|l ls IH]; [reflexivity|].
  cbn [flat_map]. rewrite length_app, IH. cbn [parseVertex List.length]. lia.
Qed.

Lemma apply_normalization_vertices (ls : list string) (center : vec3)
  (range : number) :
  List.length (apply_normalization (flat_map parseVertex ls) center range)
  = (3 * List.length ls)%nat.
Proof.
  induction ls as [|l ls IH]; [reflexivity|].
  cbn [flat_map parseVertex app apply_normalization List.length].
  rewrite IH. lia.
Qed.

Lemma load_positions_length (contents : string) :
  List.length (fst (load contents))
  = (3 * List.length (vertex_lines contents))%nat.
Proof.
  rewrite load_spec. cbn [fst]. unfold normalization.
  destruct (bounds (raw_vertices contents)) as [mn mx].
  rewrite raw_vertices_spec. apply apply_normalization_vertices.
Qed.

Lemma split_char_nonempty (sep : ascii) (s : string) :
  split_char sep s <> [].
Proof.
  destruct s as [|c r]; cbn; [discriminate|].
  destruct (Ascii.eqb c sep); [discriminate|].
  destruct (split_char sep r); discriminate.
Qed.

Lemma first_component (v rest : string) :
  (forall c, In c (list_ascii_of_string v) -> c <> "/"%char) ->
  part (split_char "/" (v ++ "/" ++ rest)) 0 = v.
Proof.
  change ("/" ++ rest)%string with (String "/" rest).
  induction v as [|c v IH]; intros H.
  - reflexivity.
  - cbn [append split_char].
    destruct (Ascii.eqb_spec c "/") as [E|E].
    + exfalso. apply (H c); [now left | exact E].
    + assert (IH' : part (split_char "/" (v ++ String "/" rest)) 0 = v).
      { apply IH. intros c' Hc'. apply H. now right. }
      pose proof (split_char_nonempty "/" (v ++ String "/" rest)) as N.
      unfold part in *.
      destruct (split_char "/" (v ++ String "/" rest)) as [|h t];
        [contradiction|].
      cbn [nth] in IH'; cbn; now rewrite IH'.
Qed.

(** C1, as the code has it: load validates nothing.  The indices it returns
    are the converted references of the face lines, in order, whatever the
    number of vertices; three positions are returned per vertex line; so the
    indices are within [0, length positions / 3) exactly when the converted
    references of the file are. *)
Theorem load_indices_not_validated (contents : string) :
  snd (load contents) = flat_map parseFace (face_lines contents)
  /\ List.length (fst (load contents))
     = (3 * List.length (vertex_lines contents))%nat
  /\ indices_in_range (load contents)
     = forallb (index_in_range (List.length (vertex_lines contents)))
         (flat_map parseFace (face_lines contents)).
Proof.
  split; [now rewrite load_spec|].
  split; [apply load_positions_length|].
  unfold indices_in_range. rewrite load_positions_length.
  rewrite load_spec. cbn [snd].
  rewrite Nat.mul_comm, Nat.div_mul by discriminate. reflexivity.
Qed.

(** C1 fails on the code: a face that names a third vertex of a file with
    two vertices is returned as it is, index 2 for 2 vertices. *)
Lemma load_returns_index_out_of_range :
  snd (load two_vertices_one_triangle) = [of_Z 0; of_Z 1; of_Z 2]
  /\ List.length (fst (load two_vertices_one_triangle)) = 6%nat
  /\ indices_in_range (load two_vertices_one_triangle) = false.
Proof.
  split; [eval_numbers|]. split; vm_compute; reflexivity.
Qed.

(** C7: parseFace converts every reference token by its first
    slash-separated component, minus one; three references give the three
    indices in order, four references [v0 v1 v2 v3] give
    [v0 v1 v2 v0 v2 v3]. *)
Theorem parseFace_converts_and_triangulates :
  (forall face_string,
     parseFace face_string
     = match map convert_reference (references face_string) with
       | [a; b; c; d] => [a; b; c; a; c; d]
       | indices => indices
       end)
  /\ (forall v rest,
        (forall c, In c (list_ascii_of_string v) -> c <> "/"%char) ->
        convert_reference (v ++ "/" ++ rest) = sub (parseInt v) one)
  /\ convert_reference "5/12/3" = of_Z 4
  /\ parseFace "f 1 2 3" = [of_Z 0; of_Z 1; of_Z 2]
  /\ parseFace "f 1 2 3 4"
     = [of_Z 0; of_Z 1; of_Z 2; of_Z 0; of_Z 2; of_Z 3].
Proof.
  split.
  { intros s.
    destruct (Nat.eqb_spec (List.length (references s)) 4) as [E|E].
    - destruct (parseFace_quad _ E) as (a & b & c & d & -> & ->). reflexivity.
    - rewrite (parseFace_other _ E).
      destruct (map convert_reference (references s))
        as [|a [|b [|c [|d [|e l]]]]] eqn:M; try reflexivity.
      apply (f_equal (@List.length _)) in M. rewrite length_map in M.
      cbn in M. contradiction. }
  split.
  { intros v rest H. unfold convert_reference. now rewrite first_component. }
  split; [apply eqb_eq; vm_compute; reflexivity|].
  split; eval_numbers.
Qed.

Lemma faces_length_mod3 (faces : list string) :
  Forall triangle_or_quad faces ->
  (List.length (flat_map parseFace faces) mod 3 = 0)%nat.
Proof.
  induction 1 as [|f fs Hf _ IH]; [reflexivity|].
  cbn [flat_map]. rewrite length_app, parseFace_length.
  rewrite Nat.Div0.add_mod, IH.
  destruct Hf as [-> | ->]; reflexivity.
Qed.

(** C10: a face line whose number of references is not 4 gives all its
    converted references, unchanged and in order; load appends them as they
    are, so that one face with 5 references among triangles and quads
    leaves a number of indices that is not a multiple of 3. *)
Theorem parseFace_other_arity_unchanged :
  (forall face_string,
     List.length (references face_string) <> 4%nat ->
     parseFace face_string
     = map convert_reference (references face_string))
  /\ (forall contents before f after,
        face_lines contents = before ++ f :: after ->
        List.length (references f) = 5%nat ->
        Forall triangle_or_quad (before ++ after) ->
        snd (load contents)
        = flat_map parseFace before
          ++ map convert_reference (references f)
          ++ flat_map parseFace after
        /\ (List.length (snd (load contents)) mod 3 = 2)%nat).
Proof.
  split; [exact parseFace_other|].
  intros contents before f after E H5 Hall.
  apply Forall_app in Hall. destruct Hall as [Hb Ha].
  assert (S : snd (load contents)
              = flat_map parseFace before
                ++ map convert_reference (references f)
                ++ flat_map parseFace after).
  { rewrite load_spec. cbn [snd]. rewrite E, flat_map_app. cbn [flat_map].
    rewrite parseFace_other by (rewrite H5; discriminate). reflexivity. }
  split; [exact S|].
  rewrite S, !length_app, length_map, H5.
  pose proof (faces_length_mod3 _ Hb) as B.
  pose proof (faces_length_mod3 _ Ha) as A.
  rewrite Nat.Div0.add_mod, B.
  rewrite (Nat.Div0.add_mod 5), A. reflexivity.
Qed.

(** C10 at a file with a triangle, a pentagon and a quad. *)
Lemma parseFace_other_arity_witness :
  parseFace "f 1 2 3 4 5" = map convert_reference (references "f 1 2 3 4 5")
  /\ (List.length (snd (load pentagon)) mod 3 = 2)%nat.
Proof.
  split.
  - apply (proj1 parseFace_other_arity_unchanged). vm_compute. discriminate.
  - apply (proj2 parseFace_other_arity_unchanged pentagon
             ["f 1 2 3"] "f 1 2 3 4 5" ["f 1 2 3 4"]).
    + vm_compute. reflexivity.
    + vm_compute. reflexivity.
    + apply Forall_cons; [left; reflexivity|].
      apply Forall_cons; [right; reflexivity | apply Forall_nil].
Defined.

End OBJLoaderParsing.

(* ================================================================== *)
(** ** OBJLoader: normalization *)

Module OBJLoaderNormalization.

Import OBJLoader JsNumberFacts Binary64Facts OBJLoaderParsing.

Lemma vec3_eta (p : vec3) : Vec3 (v0 p) (v1 p) (v2 p) = p.
Proof. now destruct p. Qed.

Lemma raw_vertices_flatten3 (contents : string) :
  raw_vertices contents
  = flatten3 (map vertex_of_line (vertex_lines contents)).
Proof.
  rewrite raw_vertices_spec.
  induction (vertex_lines contents) as [|l ls IH]; [reflexivity|].
  cbn [flat_map map flatten3]. rewrite IH. reflexivity.
Qed.

Lemma bounds_loop_flatten3 (l : list vec3) (mn mx : vec3) :
  bounds_loop (flatten3 l) mn mx = (fold_left min3 l mn, fold_left max3 l mx).
Proof.
  revert mn mx. induction l as [|p l IH]; intros mn mx; [reflexivity|].
  cbn [flatten3 bounds_loop fold_left]. rewrite vec3_eta. apply IH.
Qed.

Lemma bounds_flatten3 (p : vec3) (l : list vec3) :
  bounds (flatten3 (p :: l))
  = (fold_left min3 (p :: l) p, fold_left max3 (p :: l) p).
Proof.
  unfold bounds. cbn [flatten3 at_index nth]. rewrite vec3_eta.
  exact (bounds_loop_flatten3 (p :: l) p p).
Qed.

Lemma apply_normalization_flatten3 (l : list vec3) (center : vec3)
  (range : number) :
  apply_normalization (flatten3 l) center range
  = flatten3 (map (normalize_vertex center range) l).
Proof.
  induction l as [|p l IH]; [reflexivity|].
  cbn [flatten3 apply_normalization map]. now rewrite IH.
Qed.

Lemma normalization_flatten3 (l : list vec3) :
  normalization (flatten3 l)
  = flatten3 (map (normalize_vertex (bbox_center (flatten3 l))
                                    (bbox_range (flatten3 l))) l).
Proof.
  unfold normalization, bbox_center, bbox_range.
  destruct (bounds (flatten3 l)) as [mn mx].
  apply apply_normalization_flatten3.
Qed.

(** *** A coordinate that is NaN spoils the whole mesh *)

Lemma axis_min3 (m p : vec3) (j : nat) :
  axis (min3 m p) j = min (axis m j) (axis p j).
Proof. destruct j as [|[|j]]; reflexivity. Qed.













(** *** The formula of the normalization *)

Lemma axis_max3 (m p : vec3) (j : nat) :
  axis (max3 m p) j = max (axis m j) (axis p j).
Proof. destruct j as [|[|j]]; reflexivity. Qed.

Lemma axis_fold_min3 (l : list vec3) (m : vec3) (j : nat) :
  axis (fold_left min3 l m) j
  = fold_left min (axis_coordinates l j) (axis m j).
Proof.
  revert m. induction l as [|p l IH]; intros m; [reflexivity|].
  cbn [fold_left axis_coordinates map]. rewrite IH, axis_min3. reflexivity.
Qed.

Lemma axis_fold_max3 (l : list vec3) (m : vec3) (j : nat) :
  axis (fold_left max3 l m) j
  = fold_left max (axis_coordinates l j) (axis m j).
Proof.
  revert m. induction l as [|p l IH]; intros m; [reflexivity|].
  cbn [fold_left axis_coordinates map]. rewrite IH, axis_max3. reflexivity.
Qed.

(** The box the loops of load compute is, on every axis, the least and the
    greatest coordinate of that axis. *)
Lemma bounds_axes (p : vec3) (l : list vec3) (j : nat) :
  axis (fst (bounds (flatten3 (p :: l)))) j
  = least (axis_coordinates (p :: l) j)
  /\ axis (snd (bounds (flatten3 (p :: l)))) j
     = greatest (axis_coordinates (p :: l) j).
Proof.
  rewrite bounds_flatten3. cbn [fst snd].
  rewrite axis_fold_min3, axis_fold_max3. split; reflexivity.
Qed.

Lemma bbox_of_vertices (vs : list vec3) :
  vs <> [] ->
  bbox_center (flatten3 vs) = mesh_center vs
  /\ bbox_range (flatten3 vs) = mesh_range vs.
Proof.
  destruct vs as [|p l]; [congruence|]. intros _.
  destruct (bounds_axes p l 0) as [N0 X0], (bounds_axes p l 1) as [N1 X1],
           (bounds_axes p l 2) as [N2 X2].
  unfold bbox_center, bbox_range, mesh_center, mesh_range, axis_center,
    axis_extent.
  rewrite <- N0, <- N1, <- N2, <- X0, <- X1, <- X2.
  destruct (bounds (flatten3 (p :: l))) as [mn mx]. split; reflexivity.
Qed.

Lemma r64_flatten3 (lines : list string) :
  map r64 (flatten3 (map vertex_of_line lines))
  = flatten3 (map vertex_of_line_binary64 lines).
Proof.
  induction lines as [|l ls IH]; [reflexivity|].
  cbn [map flatten3]. rewrite IH. reflexivity.
Qed.

Lemma apply_normalization_binary64_flatten3 (l : list vec3) (center : vec3)
  (range : number) :
  apply_normalization_binary64 (flatten3 l) center range
  = flatten3 (map (normalize_vertex_binary64 center range) l).
Proof.
  induction l as [|p l IH]; [reflexivity|].
  cbn [flatten3 apply_normalization_binary64 map]. now rewrite IH.
Qed.

Lemma normalization_binary64_flatten3 (vs : list vec3) :
  normalization_binary64 (flatten3 vs)
  = flatten3 (map (normalize_vertex_binary64 (mesh_center_binary64 vs)
                                             (mesh_range_binary64 vs)) vs).
Proof.
  destruct vs as [|p l]; [reflexivity|].
  destruct (bounds_axes p l 0) as [N0 X0], (bounds_axes p l 1) as [N1 X1],
           (bounds_axes p l 2) as [N2 X2].
  unfold normalization_binary64, mesh_center_binary64, mesh_range_binary64,
    axis_center_binary64, axis_extent_binary64.
  rewrite <- N0, <- N1, <- N2, <- X0, <- X1, <- X2.
  destruct (bounds (flatten3 (p :: l))) as [mn mx].
  apply apply_normalization_binary64_flatten3.
Qed.

Lemma normalization_of_vertices (vs : list vec3) :
  normalization (flatten3 vs)
  = flatten3 (map (normalize_vertex (mesh_center vs) (mesh_range vs)) vs).
Proof.
  destruct vs as [|p l]; [reflexivity|].
  rewrite normalization_flatten3.
  destruct (bbox_of_vertices (p :: l)) as [-> ->]; [discriminate|].
  reflexivity.
Qed.

(** C5, as the code has it: load returns, for every vertex line in order,
    the three parsed coordinates, each one minus the centre of its axis and
    divided by [range / 2], the same divisor on the three axes; the centre
    of an axis is [(max + min) / 2] of the parsed coordinates of that axis
    and [range] is the largest of the three [max - min], with [Math.min] and
    [Math.max] seeded by the first vertex.  This is so in exact arithmetic
    and in binary64 arithmetic. *)
Theorem load_normalization_formula (contents : string) :
  let vs := map vertex_of_line (vertex_lines contents) in
  let vs64 := map vertex_of_line_binary64 (vertex_lines contents) in
  fst (load contents)
  = flatten3 (map (normalize_vertex (mesh_center vs) (mesh_range vs)) vs)
  /\ load_positions_binary64 contents
     = flatten3 (map (normalize_vertex_binary64 (mesh_center_binary64 vs64)
                                                (mesh_range_binary64 vs64))
                     vs64).
Proof.
  intros vs vs64. split.
  - rewrite load_spec. cbn [fst]. rewrite raw_vertices_flatten3.
    apply normalization_of_vertices.
  - unfold load_positions_binary64.
    rewrite raw_vertices_flatten3, r64_flatten3.
    apply normalization_binary64_flatten3.
Qed.

Lemma no_least_among_nan (m : number) (l : list number) :
  In NaN l -> ~ is_least m l.
Proof.
  intros I [_ F]. rewrite Forall_forall in F. specialize (F NaN I).
  destruct m; discriminate.
Qed.

(** C5 fails on the code: a file with an infinite coordinate has a vertex
    and a bounding-box range that is not zero, load returns its positions,
    and the first axis of the result is NaN on every vertex: no bounding
    box centred at the origin with longest side 2. *)
Lemma load_returns_infinite_mesh :
  load infinite_corner = ([NaN; zero; zero; NaN; zero; zero], [])
  /\ raw_vertices infinite_corner = [PInf; zero; zero; zero; zero; zero]
  /\ bbox_range (raw_vertices infinite_corner) = PInf
  /\ ~ centered_with_span_two (fst (load infinite_corner)).
Proof.
  assert (L : load infinite_corner = ([NaN; zero; zero; NaN; zero; zero], [])).
  { apply injective_projections; cbn [fst snd];
      [eval_numbers | vm_compute; reflexivity]. }
  split; [exact L|]. split; [eval_numbers|].
  split; [apply eqb_eq; vm_compute; reflexivity|].
  rewrite L. cbn [fst]. intros (lo & hi & H & _).
  destruct (H 0%nat) as (Least & _); [lia|].
  revert Least. apply no_least_among_nan. cbn. auto.
Qed.

(** *** The normalization in binary64 arithmetic *)

(** Rounding keeps the result from being centred exactly, and its longest
    side from being exactly 2, also when every coordinate is finite: the
    vertices (0.1, 0, 0) and (0.3, 0, 0) come out at -1.0000000000000002
    and 0.9999999999999999 on the first axis, where exact arithmetic gives
    -1 and 1. *)
Lemma normalization_rounds :
  load_positions_binary64 tenths
  = [ d64 (-4503599627370497) 4503599627370496; zero; zero;
      d64 9007199254740991 9007199254740992; zero; zero ]
  /\ fst (load tenths) = [of_Z (-1); zero; zero; one; zero; zero].
Proof.
  split; eval_numbers.
Qed.

(** So does overflow: the vertices (1e308, 0, 0) and (-1e308, 0, 0) have the
    range Infinity and all come out at 0; the single vertex
    (1e308, 1e308, 1e308) has the centre Infinity and comes out at
    -Infinity, where exact arithmetic gives NaN. *)
Lemma normalization_overflows :
  load_positions_binary64 far_corners = [zero; zero; zero; zero; zero; zero]
  /\ load_positions_binary64 far_point = [NInf; NInf; NInf]
  /\ fst (load far_point) = [NaN; NaN; NaN].
Proof.
  repeat split; eval_numbers.
Qed.

(** *** Degenerate meshes *)

Lemma flatten3_no_finite (l : list vec3) :
  (forall p, In p l ->
     is_finite (v0 p) = false /\ is_finite (v1 p) = false
     /\ is_finite (v2 p) = false) ->
  no_finite (flatten3 l).
Proof.
  induction l as [|p l IH]; intros H; [constructor|].
  destruct (H p (or_introl eq_refl)) as (H0 & H1 & H2).
  cbn [flatten3]. repeat (constructor; [assumption|]).
  apply IH. intros q I. apply H. now right.
Qed.

(** With the range 0 every position is a quotient by [0 / 2 = 0]. *)
Lemma zero_range_no_finite (center : vec3) (l : list vec3) :
  no_finite (flatten3 (map (normalize_vertex center zero) l))
  /\ no_finite (flatten3 (map (normalize_vertex_binary64 center zero) l)).
Proof.
  destruct half_of_zero as [H H64].
  split; apply flatten3_no_finite; intros p I; apply in_map_iff in I;
    destruct I as (q & <- & _).
  - unfold normalize_vertex. cbn [v0 v1 v2]. rewrite H.
    repeat split; apply quotient_by_zero.
  - unfold normalize_vertex_binary64. cbn [v0 v1 v2]. rewrite H64.
    repeat split; apply quotient64_by_zero.
Qed.

Lemma flatten3_length (l : list vec3) :
  List.length (flatten3 l) = (3 * List.length l)%nat.
Proof.
  induction l as [|p l IH]; [reflexivity|].
  cbn [flatten3 List.length]. lia.
Qed.

Lemma fold_same (f : number -> number -> number) (x : number)
  (l : list number) :
  f x x = x -> Forall (eq x) l -> fold_left f l x = x.
Proof.
  intros Hf. induction l as [|y l IH]; intros H; [reflexivity|].
  inversion H as [|? ? E H']; subst. cbn [fold_left]. rewrite Hf. now apply IH.
Qed.

Lemma least_greatest_same (x : number) (l : list number) :
  l <> [] -> Forall (eq x) l -> least l = x /\ greatest l = x.
Proof.
  intros N H. destruct l as [|y l]; [congruence|].
  inversion H as [|? ? E H']; subst y. unfold least, greatest. cbn [hd].
  split; apply fold_same; auto using min_same, max_same.
Qed.

(** Vertices that all coincide, with finite coordinates, have the
    range 0. *)
Lemma coincident_range (v : vec3) (vs : list vec3) :
  vs <> [] -> Forall (eq v) vs -> WebGlApp.finite_vec v ->
  mesh_range vs = zero /\ mesh_range_binary64 vs = zero.
Proof.
  intros N H (F0 & F1 & F2).
  assert (A : forall j, least (axis_coordinates vs j) = axis v j
                        /\ greatest (axis_coordinates vs j) = axis v j).
  { intros j. apply least_greatest_same.
    - destruct vs; [congruence | discriminate].
    - unfold axis_coordinates. apply Forall_map.
      revert H. apply Forall_impl. now intros p <-. }
  unfold mesh_range, mesh_range_binary64, axis_extent, axis_extent_binary64.
  destruct (A 0%nat) as [-> ->], (A 1%nat) as [-> ->], (A 2%nat) as [-> ->].
  cbn [axis].
  destruct (sub_same _ F0) as [-> ->], (sub_same _ F1) as [-> ->],
           (sub_same _ F2) as [-> ->].
  split; reflexivity.
Qed.

(** C2, as the code has it: load reports no error on a degenerate mesh.
    Without a vertex line it returns no position; when the bounding box of
    the parsed vertices has the range 0, as it has when they all coincide
    and are finite, it returns three positions per vertex line, none of
    them a finite number: every one is a quotient by zero.  This is so in
    exact arithmetic and in binary64 arithmetic. *)
Theorem degenerate_mesh_is_returned (contents : string) :
  let vs := map vertex_of_line (vertex_lines contents) in
  let vs64 := map vertex_of_line_binary64 (vertex_lines contents) in
  (vertex_lines contents = [] ->
   fst (load contents) = [] /\ load_positions_binary64 contents = [])
  /\ (mesh_range vs = zero ->
      no_finite (fst (load contents))
      /\ List.length (fst (load contents))
         = (3 * List.length (vertex_lines contents))%nat)
  /\ (mesh_range_binary64 vs64 = zero ->
      no_finite (load_positions_binary64 contents)
      /\ List.length (load_positions_binary64 contents)
         = (3 * List.length (vertex_lines contents))%nat)
  /\ (forall v, vertex_lines contents <> [] -> WebGlApp.finite_vec v ->
        (Forall (eq v) vs -> mesh_range vs = zero)
        /\ (Forall (eq v) vs64 -> mesh_range_binary64 vs64 = zero)).
Proof.
  intros vs vs64.
  assert (F : fst (load contents)
              = flatten3 (map (normalize_vertex (mesh_center vs)
                                                (mesh_range vs)) vs)).
  { rewrite load_spec. cbn [fst]. rewrite raw_vertices_flatten3.
    apply normalization_of_vertices. }
  assert (F64 : load_positions_binary64 contents
                = flatten3 (map (normalize_vertex_binary64
                                   (mesh_center_binary64 vs64)
                                   (mesh_range_binary64 vs64)) vs64)).
  { unfold load_positions_binary64.
    rewrite raw_vertices_flatten3, r64_flatten3.
    apply normalization_binary64_flatten3. }
  split; [|split; [|split]].
  - intros E. rewrite F, F64. unfold vs, vs64. rewrite E. split; reflexivity.
  - intros R. rewrite F, R. split; [apply zero_range_no_finite|].
    rewrite flatten3_length. unfold vs. now rewrite !length_map.
  - intros R. rewrite F64, R. split; [apply zero_range_no_finite|].
    rewrite flatten3_length. unfold vs64. now rewrite !length_map.
  - intros v N Fv.
    assert (N1 : vs <> []).
    { unfold vs. destruct (vertex_lines contents); [congruence | discriminate]. }
    assert (N2 : vs64 <> []).
    { unfold vs64. destruct (vertex_lines contents);
        [congruence | discriminate]. }
    split; intros H.
    + exact (proj1 (coincident_range v vs N1 H Fv)).
    + exact (proj2 (coincident_range v vs64 N2 H Fv)).
Qed.

(** C2 at a file with faces only, at a file with two equal vertices and,
    in binary64 arithmetic, at a file whose centre overflows. *)
Lemma degenerate_mesh_witness :
  (fst (load faces_only) = [] /\ load_positions_binary64 faces_only = [])
  /\ no_finite (fst (load coincident_vertices))
  /\ no_finite (load_positions_binary64 far_point)
  /\ mesh_range (map vertex_of_line (vertex_lines coincident_vertices))
     = zero.
Proof.
  split; [|split; [|split]].
  - apply (proj1 (degenerate_mesh_is_returned faces_only)). reflexivity.
  - apply (proj1 (proj2 (degenerate_mesh_is_returned coincident_vertices))).
    apply eqb_eq. vm_compute. reflexivity.
  - apply (proj1 (proj2 (proj2 (degenerate_mesh_is_returned far_point)))).
    apply eqb_eq. vm_compute. reflexivity.
  - refine (proj1 (proj2 (proj2 (proj2
              (degenerate_mesh_is_returned coincident_vertices)))
              (Vec3 one one one) _ _) _).
    + vm_compute. discriminate.
    + repeat split; reflexivity.
    + assert (E : vertex_lines coincident_vertices = ["v 1 1 1"; "v 1 1 1"])
        by (vm_compute; reflexivity).
      rewrite E. cbn [map].
      repeat (apply Forall_cons;
                [unfold vertex_of_line; f_equal; apply eqb_eq; vm_compute;
                 reflexivity|]).
      apply Forall_nil.
Defined.

(** C2 fails on the code: no load fails with a DegenerateMeshError.  A file
    without vertices gives an empty position array and its faces; a file
    whose vertices coincide gives positions that are all NaN. *)
Lemma load_returns_degenerate_mesh :
  load faces_only = ([], [of_Z 0; of_Z 1; of_Z 2])
  /\ load coincident_vertices
     = ([NaN; NaN; NaN; NaN; NaN; NaN], [of_Z 0; of_Z 1; of_Z 0]).
Proof.
  split; apply injective_projections; cbn [fst snd];
    first [ eval_numbers | vm_compute; reflexivity ].
Qed.

End OBJLoaderNormalization.

(* ================================================================== *)
(** ** WebGlApp: camera and node updates *)

Module WebGlAppProofs.

Import WebGlApp JsNumberFacts Binary64Facts.

Local Open Scope js_scope.

Lemma add_zero_l (x : number) : zero + x = x.
Proof. destruct x; cbn; try reflexivity. f_equal. apply Qcplus_0_l. Qed.

Lemma mul_comm (x y : number) : x * y = y * x.
Proof.
  destruct x, y; cbn; try reflexivity. f_equal. apply Qcmult_comm.
Qed.

(** The vector the pan and translate blocks build from the zero vector. *)
Lemma scaleAndAdd_twice (r u : vec3) (s t : number) :
  vec3_scaleAndAdd (vec3_scaleAndAdd vec3_create r s) u t
  = Vec3 (s * v0 r + t * v0 u) (s * v1 r + t * v1 u) (s * v2 r + t * v2 u).
Proof.
  unfold vec3_scaleAndAdd, vec3_create. cbn [v0 v1 v2].
  now rewrite !add_zero_l, !(mul_comm s), !(mul_comm t).
Qed.

Section WithGlMatrix.

Context {G : GlMatrixExt}.

Lemma updateCamera_modes (a : app) (i : Input) (delta_time : number) :
  eye (updateCamera a i delta_time) = eye (camera_modes a i delta_time)
  /\ center (updateCamera a i delta_time)
     = center (camera_modes a i delta_time).
Proof.
  unfold updateCamera, camera_modes, zoom_active, rotate_active, pan_active.
  destruct i as [b0 b1 b2 sp dx dy]. cbn [isMouseDown isKeyDown_space button0 button1 button2 key_space].
  destruct b0, b1, b2, sp; cbn [andb orb negb]; split; reflexivity.
Qed.

Lemma camera_pan_adds (a : app) (i : Input) (delta_time : number) :
  eye (camera_pan a i delta_time)
  = vec3_add (eye a) (pan_vector a i delta_time)
  /\ center (camera_pan a i delta_time)
     = vec3_add (center a) (pan_vector a i delta_time).
Proof.
  unfold camera_pan. rewrite scaleAndAdd_twice. split; reflexivity.
Qed.

Lemma updateCamera_binary64_pan_only (a : app) (i : Input)
  (delta_time : number) :
  zoom_active i = false -> rotate_active i = false -> pan_active i = true ->
  eye (updateCamera_binary64 a i delta_time)
  = vec3_add_binary64 (eye a) (pan_vector_binary64 a i delta_time)
  /\ center (updateCamera_binary64 a i delta_time)
     = vec3_add_binary64 (center a) (pan_vector_binary64 a i delta_time).
Proof.
  unfold zoom_active, rotate_active, pan_active, updateCamera_binary64.
  intros -> -> ->. split; reflexivity.
Qed.


End WithGlMatrix.


Lemma vec3_eqb_eq (a b : vec3) :
  list_eqb [v0 a; v1 a; v2 a] [v0 b; v1 b; v2 b] = true -> a = b.
Proof.
  intros H. apply list_eqb_eq in H. destruct a, b. cbn in H. congruence.
Qed.

Lemma Fin_neq (a b : Qc) : Qc_eqb a b = false -> Fin a <> Fin b.
Proof.
  intros H E. apply Fin_inj in E. apply Qc_eqb_neq in H. contradiction.
Qed.


Section CameraModes.

Context {G : GlMatrixExt}.

(** C4, as the code has it: the three modes are tested one after the
    other, in the order zoom, rotate, pan, and every mode whose buttons are
    held updates eye/center; they exclude each other only on the frames
    where no two of them are active, and there updateCamera does what the
    first active mode alone does. *)
Theorem updateCamera_applies_every_active_mode (a : app) (i : Input)
  (delta_time : number) :
  eye (updateCamera a i delta_time) = eye (camera_modes a i delta_time)
  /\ center (updateCamera a i delta_time)
     = center (camera_modes a i delta_time)
  /\ (zoom_active i && (rotate_active i || pan_active i) = false ->
      rotate_active i && pan_active i = false ->
      one_mode_per_call a i delta_time).
Proof.
  destruct (updateCamera_modes a i delta_time) as [He Hc].
  split; [exact He|]. split; [exact Hc|].
  intros H1 H2. unfold one_mode_per_call. rewrite He, Hc.
  unfold camera_modes, camera_exclusive.
  destruct (zoom_active i), (rotate_active i), (pan_active i);
    cbn in H1, H2; try discriminate; split; reflexivity.
Qed.

End CameraModes.

(** C4 on a frame with the secondary button alone. *)
Lemma updateCamera_one_mode_witness :
  @one_mode_per_call glmatrix_idle camera_front drag_secondary half.
Proof.
  apply (proj2 (proj2 (@updateCamera_applies_every_active_mode glmatrix_idle
                         camera_front drag_secondary half)));
    reflexivity.
Defined.

(** C4 fails on the code: with the secondary and the primary button held
    (and the modifier key), zoom and pan both run: the eye is moved away
    from the center and then both are shifted, where zoom alone would
    leave the center at the origin. *)
Lemma updateCamera_zoom_and_pan_both_apply :
  for_every_glmatrix (fun G =>
    eye (updateCamera camera_front drag_secondary_primary_space half)
    = vec (-1) 1 4
    /\ center (updateCamera camera_front drag_secondary_primary_space half)
       = vec (-1) 1 0
    /\ center (camera_exclusive camera_front drag_secondary_primary_space half)
       = vec 0 0 0
    /\ ~ one_mode_per_call camera_front drag_secondary_primary_space half).
Proof.
  intros G.
  destruct (updateCamera_modes camera_front drag_secondary_primary_space half)
    as [He Hc].
  assert (C : center (updateCamera camera_front drag_secondary_primary_space half)
              = vec (-1) 1 0).
  { rewrite Hc. apply vec3_eqb_eq. vm_compute. reflexivity. }
  split; [rewrite He; apply vec3_eqb_eq; vm_compute; reflexivity|].
  split; [exact C|].
  split; [reflexivity|].
  intros [_ H]. rewrite C in H. apply (f_equal v0) in H.
  revert H. apply Fin_neq. vm_compute. reflexivity.
Qed.

Section CameraZoom.

Context {G : GlMatrixExt}.

Lemma updateCamera_secondary_only (a : app) (i : Input)
  (delta_time : number) :
  button2 i = true -> button0 i = false -> button1 i = false ->
  center (updateCamera a i delta_time) = center a
  /\ eye (updateCamera a i delta_time)
     = vec3_scaleAndAdd (center a) (vec3_subtract (eye a) (center a))
         (one + getMouseDy i * (two * delta_time)).
Proof.
  intros B2 B0 B1.
  destruct (updateCamera_modes a i delta_time) as [-> ->].
  unfold camera_modes, zoom_active, rotate_active, pan_active, isMouseDown.
  rewrite B2, B0, B1. split; reflexivity.
Qed.

Lemma moderate_finite (x : number) :
  moderate x = true -> exists q, x = Fin q.
Proof.
  destruct x; intros H; [eauto | | |]; vm_compute in H; discriminate.
Qed.

Lemma scaleAndAdd_no_offset (c : vec3) (k : Qc) :
  finite_vec c -> vec3_scaleAndAdd c (vec3_subtract c c) (Fin k) = c.
Proof.
  intros (F0 & F1 & F2). destruct c as [c0 c1 c2].
  cbn [v0 v1 v2] in F0, F1, F2.
  destruct (finite_inv _ F0) as [x0 ->], (finite_inv _ F1) as [x1 ->],
           (finite_inv _ F2) as [x2 ->].
  unfold vec3_scaleAndAdd, vec3_subtract. cbn [v0 v1 v2 add sub mul neg].
  f_equal; f_equal; ring.
Qed.

Lemma updateCamera_binary64_secondary_only (a : app) (i : Input)
  (delta_time : number) :
  button2 i = true -> button0 i = false -> button1 i = false ->
  center (updateCamera_binary64 a i delta_time) = center a
  /\ eye (updateCamera_binary64 a i delta_time)
     = vec3_scaleAndAdd_binary64 (center a)
         (store32 (vec3_subtract_binary64 (eye a) (center a)))
         (zoom_factor_binary64 i delta_time).
Proof.
  intros B2 B0 B1. unfold updateCamera_binary64, isMouseDown.
  rewrite B2, B0, B1. split; reflexivity.
Qed.

(** A zero offset is stored as zero, scaled to zero and added as zero. *)
Lemma scaleAndAdd_binary64_no_offset (c : vec3) (k : number) :
  binary64_vec c -> is_finite k = true ->
  vec3_scaleAndAdd_binary64 c (store32 (vec3_subtract_binary64 c c)) k = c.
Proof.
  intros ((F0 & F1 & F2) & R0 & R1 & R2) Fk. destruct c as [c0 c1 c2].
  cbn [v0 v1 v2] in *.
  unfold vec3_scaleAndAdd_binary64, vec3_subtract_binary64, store32.
  cbn [v0 v1 v2].
  rewrite (proj2 (sub_same _ F0)), (proj2 (sub_same _ F1)),
          (proj2 (sub_same _ F2)).
  change (r32 zero) with zero.
  rewrite (mul64_zero_l _ Fk), !add64_zero_r by assumption.
  reflexivity.
Qed.

(** C8, as the code has it: on a frame where only the secondary button is
    held, updateCamera leaves center as it is and replaces eye by
    [center + (eye - center) * (1 + dy * zoomSpeed)]; an eye that is on the
    center stays on it, whatever [dy] and [delta_time] of moderate size
    are.  In binary64 arithmetic too the center is left as it is, the eye
    is replaced by that expression, with [eye - center] kept in a
    Float32Array, and an eye that is on the center stays on it as long as
    the factor is finite. *)
Theorem updateCamera_zoom_scales_offset (a : app) (i : Input)
  (delta_time : number) :
  button2 i = true -> button0 i = false -> button1 i = false ->
  (center (updateCamera a i delta_time) = center a
   /\ eye (updateCamera a i delta_time)
      = vec3_scaleAndAdd (center a) (vec3_subtract (eye a) (center a))
          (one + getMouseDy i * (two * delta_time))
   /\ (eye a = center a -> finite_vec (center a) ->
       moderate (getMouseDy i) = true -> moderate delta_time = true ->
       eye (updateCamera a i delta_time) = center a))
  /\ (center (updateCamera_binary64 a i delta_time) = center a
      /\ eye (updateCamera_binary64 a i delta_time)
         = vec3_scaleAndAdd_binary64 (center a)
             (store32 (vec3_subtract_binary64 (eye a) (center a)))
             (zoom_factor_binary64 i delta_time)
      /\ (eye a = center a -> binary64_vec (center a) ->
          is_finite (zoom_factor_binary64 i delta_time) = true ->
          eye (updateCamera_binary64 a i delta_time) = center a)).
Proof.
  intros B2 B0 B1. split.
  - destruct (updateCamera_secondary_only a i delta_time B2 B0 B1)
      as [Hc He].
    split; [exact Hc|]. split; [exact He|].
    intros E Fc My Mt. rewrite He, E.
    destruct (moderate_finite _ My) as [dy ->].
    destruct (moderate_finite _ Mt) as [t ->].
    now apply scaleAndAdd_no_offset.
  - destruct (updateCamera_binary64_secondary_only a i delta_time B2 B0 B1)
      as [Hc He].
    split; [exact Hc|]. split; [exact He|].
    intros E Fc Fk. rewrite He, E.
    now apply scaleAndAdd_binary64_no_offset.
Qed.

End CameraZoom.

(** C8 at a camera whose eye is on its center, dragged down by one. *)
Lemma updateCamera_zoom_witness :
  eye (@updateCamera glmatrix_idle camera_collapsed drag_secondary half)
  = center camera_collapsed
  /\ eye (@updateCamera_binary64 glmatrix_idle camera_collapsed
            drag_secondary half)
     = center camera_collapsed.
Proof.
  pose proof (@updateCamera_zoom_scales_offset glmatrix_idle
                camera_collapsed drag_secondary half eq_refl eq_refl eq_refl)
    as [(_ & _ & H) (_ & _ & H64)].
  split.
  - apply H; try reflexivity. repeat split; reflexivity.
  - apply H64; try reflexivity. repeat split; reflexivity.
Defined.

(** C8 fails on the code when the eye is at the center.  From the camera
    of the constructor, a frame with the secondary button and [dy = -1],
    [delta_time = 1/2] scales the offset by 0 and puts the eye on the
    center; on the next frame, with [dy = 1], the eye stays there: it is
    not strictly farther. *)
Lemma updateCamera_zoom_stuck_at_center :
  for_every_glmatrix (fun G =>
    let a1 := updateCamera initial_app drag_secondary_up half in
    let a2 := updateCamera a1 drag_secondary half in
    eye a1 = center a1
    /\ eye a2 = eye a1
    /\ ~ strictly_farther (center a1) (eye a1) (eye a2)).
Proof.
  intros G a1 a2.
  destruct (updateCamera_secondary_only initial_app drag_secondary_up half
              eq_refl eq_refl eq_refl) as (C1 & E1).
  destruct (updateCamera_secondary_only a1 drag_secondary half
              eq_refl eq_refl eq_refl) as (C2 & E2).
  fold a1 in C1, E1. fold a2 in C2, E2.
  assert (Hc : center a1 = vec 0 0 0) by (rewrite C1; reflexivity).
  assert (He : eye a1 = vec 0 0 0).
  { rewrite E1. apply vec3_eqb_eq. vm_compute. reflexivity. }
  assert (He2 : eye a2 = vec 0 0 0).
  { rewrite E2, He, Hc. apply vec3_eqb_eq. vm_compute. reflexivity. }
  split; [now rewrite He, Hc|]. split; [now rewrite He, He2|].
  intros [_ H]. rewrite He, He2, Hc in H. vm_compute in H. discriminate.
Qed.

(** In binary64 a factor [1 + dy * zoomSpeed] with [dy > 0] and
    [delta_time > 0] can round to 1: on a frame of [2^-60] seconds with the
    secondary button held and [dy = 1] the eye stays where it is.  And the
    binary32 rounding of [eye - center] moves the eye even when the factor
    is 1: from (2.4, 0.6, -2.4) to
    (2.4000000953674316, 0.6000000238418579, -2.4000000953674316). *)
Lemma updateCamera_zoom_rounds :
  for_every_glmatrix (fun G =>
    eye (updateCamera_binary64 camera_front drag_secondary instant)
    = eye camera_front
    /\ ~ strictly_farther (center camera_front) (eye camera_front)
           (eye (updateCamera_binary64 camera_front drag_secondary instant))
    /\ eye (updateCamera_binary64 camera_tenths still_secondary half)
       = Vec3 (num 5033165 2097152) (num 5033165 8388608)
              (num (-5033165) 2097152)).
Proof.
  intros G.
  assert (E : eye (updateCamera_binary64 camera_front drag_secondary instant)
              = eye camera_front).
  { change (eye (camera_zoom_binary64 camera_front drag_secondary instant)
            = eye camera_front).
    apply vec3_eqb_eq. vm_compute. reflexivity. }
  split; [exact E|]. split.
  - rewrite E. intros [_ H]. vm_compute in H. discriminate.
  - change (eye (camera_zoom_binary64 camera_tenths still_secondary half)
            = Vec3 (num 5033165 2097152) (num 5033165 8388608)
                   (num (-5033165) 2097152)).
    apply vec3_eqb_eq. vm_compute. reflexivity.
Qed.


(** Replaces the entries of a finite matrix by [Fin q]. *)
Ltac finite_entries H :=
  unfold finite_mat in H; cbn [m0 m1 m2 m3 m4 m5 m6 m7 m8 m9 m10 m11 m12
                                m13 m14 m15] in H;
  repeat match goal with
  | F : Forall _ (_ :: _) |- _ =>
      let F1 := fresh "F" in
      let F2 := fresh "F" in
      apply Forall_cons_iff in F; destruct F as [F1 F2];
      apply finite_inv in F1; destruct F1 as [? ->]
  | F : Forall _ [] |- _ => clear F
  end.

Lemma row_1000 (a b c d : Qc) :
  Fin a * one + Fin b * zero + Fin c * zero + Fin d * zero = Fin a.
Proof.
  unfold zero, one, of_Z. cbn [add mul].
  change (Q2Qc (inject_Z 1)) with 1%Qc. change (Q2Qc (inject_Z 0)) with 0%Qc.
  f_equal. ring.
Qed.

Lemma row_0100 (a b c d : Qc) :
  Fin a * zero + Fin b * one + Fin c * zero + Fin d * zero = Fin b.
Proof.
  unfold zero, one, of_Z. cbn [add mul].
  change (Q2Qc (inject_Z 1)) with 1%Qc. change (Q2Qc (inject_Z 0)) with 0%Qc.
  f_equal. ring.
Qed.

Lemma row_0010 (a b c d : Qc) :
  Fin a * zero + Fin b * zero + Fin c * one + Fin d * zero = Fin c.
Proof.
  unfold zero, one, of_Z. cbn [add mul].
  change (Q2Qc (inject_Z 1)) with 1%Qc. change (Q2Qc (inject_Z 0)) with 0%Qc.
  f_equal. ring.
Qed.

Lemma row_0001 (a b c d : Qc) :
  Fin a * zero + Fin b * zero + Fin c * zero + Fin d * one = Fin d.
Proof.
  unfold zero, one, of_Z. cbn [add mul].
  change (Q2Qc (inject_Z 1)) with 1%Qc. change (Q2Qc (inject_Z 0)) with 0%Qc.
  f_equal. ring.
Qed.

Lemma col_0001 (a b c d : Qc) :
  zero * Fin a + zero * Fin b + zero * Fin c + one * Fin d = Fin d.
Proof.
  rewrite !(mul_comm zero), (mul_comm one). apply row_0001.
Qed.

Lemma mat4_multiply_id_l (m : mat4) :
  finite_mat m -> mat4_multiply mat4_create m = m.
Proof.
  intros F. destruct m. finite_entries F.
  unfold mat4_multiply, mat4_create.
  cbn [m0 m1 m2 m3 m4 m5 m6 m7 m8 m9 m10 m11 m12 m13 m14 m15].
  now rewrite !row_1000, !row_0100, !row_0010, !row_0001.
Qed.

Lemma translation_column_scaled (m : mat4) (v : vec3) :
  finite_mat m ->
  translation_column (mat4_multiply m (mat4_fromScaling v))
  = translation_column m.
Proof.
  intros F. destruct m. finite_entries F.
  unfold translation_column, mat4_multiply, mat4_fromScaling.
  cbn [m0 m1 m2 m3 m4 m5 m6 m7 m8 m9 m10 m11 m12 m13 m14 m15].
  now rewrite !col_0001.
Qed.

Lemma fromTranslation_finite (t : vec3) :
  finite_vec t -> finite_mat (mat4_fromTranslation t).
Proof.
  intros (F0 & F1 & F2). unfold finite_mat, mat4_fromTranslation.
  cbn [m0 m1 m2 m3 m4 m5 m6 m7 m8 m9 m10 m11 m12 m13 m14 m15].
  repeat (apply Forall_cons; [first [assumption | reflexivity]|]).
  apply Forall_nil.
Qed.

Section SceneNodes.

Context {G : GlMatrixExt}.

Lemma updateSceneNode_composes (a : app) (node : SceneNode) (i : Input)
  (delta_time : number) :
  updateSceneNode a node i delta_time
  = if node_active i then
      MkNode
        (mat4_multiply
           (mat4_multiply (rotation_matrix a i delta_time)
              (mat4_multiply (translation_matrix a i delta_time)
                 (transformation node)))
           (scale_matrix i delta_time))
    else node.
Proof.
  unfold updateSceneNode, node_active, rotation_matrix, translation_matrix,
    scale_matrix, zoom_active, rotate_active, pan_active.
  cbv zeta. rewrite scaleAndAdd_twice.
  destruct (isMouseDown i 2), (isMouseDown i 0 && negb (isKeyDown_space i)),
    (isMouseDown i 1 || isMouseDown i 0 && isKeyDown_space i);
    reflexivity.
Qed.

(** C6: on a frame where a node interaction is active, updateSceneNode
    writes back [Rotation * Translation * T_old * Scale] (multiplied from
    the inside out: translation, then rotation, on the left, scale on the
    right), with [Rotation = rotY * rotX]; on a frame with the secondary
    button only, a node whose transformation is a pure translation keeps
    its translation column. *)
Theorem updateSceneNode_composition_order (a : app) (node : SceneNode)
  (i : Input) (delta_time : number) :
  (node_active i = true ->
   transformation (updateSceneNode a node i delta_time)
   = mat4_multiply
       (mat4_multiply (rotation_matrix a i delta_time)
          (mat4_multiply (translation_matrix a i delta_time)
             (transformation node)))
       (scale_matrix i delta_time))
  /\ (rotate_active i = true ->
      rotation_matrix a i delta_time
      = mat4_multiply
          (mat4_fromRotation mat4_create
             (getMouseDx i * (two * delta_time)) (up a))
          (mat4_fromRotation mat4_create
             (getMouseDy i * (two * delta_time)) (right a)))
  /\ (button2 i = true -> button0 i = false -> button1 i = false ->
      rotation_matrix a i delta_time = mat4_create
      /\ translation_matrix a i delta_time = mat4_create
      /\ forall t, finite_vec t ->
           transformation node = mat4_fromTranslation t ->
           translation_column
             (transformation (updateSceneNode a node i delta_time))
           = translation_column (transformation node)).
Proof.
  split.
  { intros H. now rewrite updateSceneNode_composes, H. }
  split.
  { intros H. unfold rotation_matrix. now rewrite H. }
  intros B2 B0 B1.
  assert (R : rotation_matrix a i delta_time = mat4_create).
  { unfold rotation_matrix, rotate_active, isMouseDown. now rewrite B0. }
  assert (T : translation_matrix a i delta_time = mat4_create).
  { unfold translation_matrix, pan_active, isMouseDown. now rewrite B0, B1. }
  split; [exact R|]. split; [exact T|].
  intros t Ft E.
  pose proof (fromTranslation_finite t Ft) as F.
  rewrite updateSceneNode_composes.
  unfold node_active, zoom_active, isMouseDown at 1. rewrite B2.
  cbn [orb transformation]. rewrite R, T, E.
  rewrite 2!(mat4_multiply_id_l _ F).
  unfold scale_matrix, zoom_active, isMouseDown. rewrite B2.
  now apply translation_column_scaled.
Qed.

End SceneNodes.

(** C6 at a node placed at (3, 4, 5), scaled with the secondary button. *)
Lemma updateSceneNode_scale_witness :
  transformation
    (@updateSceneNode glmatrix_idle camera_front node_translated
       drag_secondary half)
  = mat4_multiply
      (mat4_multiply
         (@rotation_matrix glmatrix_idle camera_front drag_secondary half)
         (mat4_multiply (translation_matrix camera_front drag_secondary half)
            (transformation node_translated)))
      (scale_matrix drag_secondary half)
  /\ translation_column
       (transformation
          (@updateSceneNode glmatrix_idle camera_front node_translated
             drag_secondary half))
     = translation_column (transformation node_translated).
Proof.
  pose proof (@updateSceneNode_composition_order glmatrix_idle camera_front
                node_translated drag_secondary half) as (H1 & _ & H3).
  split; [apply H1; reflexivity|].
  destruct (H3 eq_refl eq_refl eq_refl) as (_ & _ & H).
  apply (H (vec 3 4 5)); [repeat split; reflexivity | reflexivity].
Defined.

End WebGlAppProofs.

(* ================================================================== *)
(** ** OBJLoader: further properties of parsing *)

Module OBJLoaderLines.

Import OBJLoader JsNumberFacts OBJLoaderParsing.

Lemma split_char_app (sep : ascii) (a b : string) :
  split_char sep (a ++ String sep b) = split_char sep a ++ split_char sep b.
Proof.
  induction a as [|c a IH]; cbn [append split_char].
  - now rewrite Ascii.eqb_refl.
  - destruct (Ascii.eqb c sep); rewrite IH; [reflexivity|].
    pose proof (split_char_nonempty sep a) as N.
    destruct (split_char sep a); [contradiction | reflexivity].
Qed.

Lemma lines_app (a b : string) :
  split_char LF (a ++ nl ++ b) = split_char LF a ++ split_char LF b.
Proof. apply split_char_app. Qed.

Lemma trimmed_lines_app (a b : string) :
  trimmed_lines (a ++ nl ++ b) = trimmed_lines a ++ trimmed_lines b.
Proof. unfold trimmed_lines. now rewrite lines_app, map_app. Qed.

Lemma vertex_lines_app (a b : string) :
  vertex_lines (a ++ nl ++ b) = vertex_lines a ++ vertex_lines b.
Proof. unfold vertex_lines. now rewrite trimmed_lines_app, filter_app. Qed.

Lemma face_lines_app (a b : string) :
  face_lines (a ++ nl ++ b) = face_lines a ++ face_lines b.
Proof. unfold face_lines. now rewrite trimmed_lines_app, filter_app. Qed.

Lemma filter_none {A : Type} (f : A -> bool) (l : list A) :
  forallb (fun x => negb (f x)) l = true -> filter f l = [].
Proof.
  induction l as [|x l IH]; cbn; [reflexivity|].
  rewrite andb_true_iff, negb_true_iff. intros [-> H]. now apply IH.
Qed.

Lemma ignored_lines_filtered (l : string) :
  forallb ignored_line (trimmed_lines l) = true ->
  vertex_lines l = [] /\ face_lines l = [].
Proof.
  intros H. unfold vertex_lines, face_lines.
  split; apply filter_none; rewrite forallb_forall in *; intros x I;
    specialize (H x I); unfold ignored_line in H;
    apply andb_true_iff in H; tauto.
Qed.

(** X1: lines that are neither vertex nor face records (comments, normals,
    texture coordinates, groups, blank lines) do not change what load
    returns, wherever they stand in the file. *)
Theorem load_skips_other_lines (a l b : string) :
  forallb ignored_line (trimmed_lines l) = true ->
  load (a ++ nl ++ l ++ nl ++ b) = load (a ++ nl ++ b)
  /\ load (l ++ nl ++ b) = load b
  /\ load (a ++ nl ++ l) = load a.
Proof.
  intros H. destruct (ignored_lines_filtered l H) as [V F].
  rewrite !load_spec, !raw_vertices_spec.
  rewrite !vertex_lines_app, !face_lines_app, V, F.
  cbn [app]. now rewrite !app_nil_r.
Qed.

(** X1 at a comment and a normal placed between two vertices. *)
Lemma load_skips_other_lines_witness :
  load ("v 0 0 0" ++ nl ++ ("# corner" ++ nl ++ "vn 0 0 1") ++ nl ++ "v 2 2 2")
  = load ("v 0 0 0" ++ nl ++ "v 2 2 2").
Proof.
  apply (proj1 (load_skips_other_lines "v 0 0 0"
                  ("# corner" ++ nl ++ "vn 0 0 1") "v 2 2 2" eq_refl)).
Defined.

(** X2: the face indices of two files put one after the other are the
    indices of the first followed by those of the second, unchanged: the
    references of the second file are not shifted by the number of
    vertices of the first.  The parsed vertices are concatenated too. *)
Theorem load_of_concatenation (a b : string) :
  snd (load (a ++ nl ++ b)) = snd (load a) ++ snd (load b)
  /\ raw_vertices (a ++ nl ++ b) = raw_vertices a ++ raw_vertices b
  /\ List.length (fst (load (a ++ nl ++ b)))
     = (List.length (fst (load a)) + List.length (fst (load b)))%nat.
Proof.
  split; [|split].
  - rewrite !load_spec. cbn [snd]. now rewrite face_lines_app, flat_map_app.
  - rewrite !raw_vertices_spec. now rewrite vertex_lines_app, flat_map_app.
  - rewrite !load_positions_length, vertex_lines_app, length_app. lia.
Qed.

Lemma trimEnd_ws (s : string) (w : ascii) :
  is_ws w = true -> trimEnd (s ++ String w EmptyString) = trimEnd s.
Proof.
  intros H. induction s as [|c s IH]; cbn [append trimEnd].
  - now rewrite H.
  - now rewrite IH.
Qed.

Lemma trim_ws_end (s : string) (w : ascii) :
  is_ws w = true -> trim (s ++ String w EmptyString) = trim s.
Proof.
  intros H. unfold trim. induction s as [|c s IH]; cbn [append trimStart].
  - now rewrite H.
  - destruct (is_ws c); [exact IH|].
    exact (trimEnd_ws (String c s) w H).
Qed.

Lemma crlf_lines (s : string) :
  Forall2 (fun h' h => h' = h \/ h' = (h ++ String CR EmptyString)%string)
    (split_char LF (crlf s)) (split_char LF s).
Proof.
  induction s as [|c s IH]; cbn [crlf split_char].
  - constructor; [now left | constructor].
  - destruct (Ascii.eqb_spec c LF) as [E|E].
    + cbn [split_char].
      change (Ascii.eqb CR LF) with false. rewrite Ascii.eqb_refl.
      cbn [cons_first]. constructor; [now right | exact IH].
    + cbn [split_char]. apply Ascii.eqb_neq in E. rewrite E.
      inversion IH as [|h' h t' t R T]; subst; cbn [cons_first].
      * constructor; [now left | constructor].
      * constructor; [|exact T].
        destruct R as [->| ->]; [now left | now right].
Qed.

Lemma trimmed_lines_crlf (s : string) :
  trimmed_lines (crlf s) = trimmed_lines s.
Proof.
  unfold trimmed_lines.
  induction (crlf_lines s) as [|h' h t' t R _ IH]; [reflexivity|].
  cbn [map]. rewrite IH. f_equal.
  destruct R as [->| ->]; [reflexivity|].
  now apply trim_ws_end.
Qed.

(** X3: Windows line ends do not matter: a file in which every line feed is
    preceded by a carriage return loads to the same positions and
    indices. *)
Theorem load_ignores_carriage_returns (contents : string) :
  load (crlf contents) = load contents.
Proof.
  rewrite !load_spec, !raw_vertices_spec.
  unfold vertex_lines, face_lines. now rewrite trimmed_lines_crlf.
Qed.

Lemma parseFace_members (f : string) (i : number) :
  In i (parseFace f) <-> In i (map convert_reference (references f)).
Proof.
  destruct (Nat.eqb_spec (List.length (references f)) 4) as [E|E].
  - destruct (parseFace_quad _ E) as (a & b & c & d & -> & ->).
    cbn [In]. tauto.
  - now rewrite parseFace_other.
Qed.

(** X4: triangulation neither invents nor loses a vertex: a number is among
    the indices load returns exactly when it is the converted reference
    (first component minus one) of some reference of some face line. *)
Theorem load_indices_are_the_references (contents : string) (i : number) :
  In i (snd (load contents))
  <-> exists f r,
        In f (face_lines contents) /\ In r (references f)
        /\ i = convert_reference r.
Proof.
  rewrite load_spec. cbn [snd]. rewrite in_flat_map. split.
  - intros (f & If & Ii). apply parseFace_members, in_map_iff in Ii.
    destruct Ii as (r & <- & Ir). now exists f, r.
  - intros (f & r & If & Ir & ->). exists f. split; [exact If|].
    apply parseFace_members, in_map_iff. now exists r.
Qed.

Lemma count_arity_cons (n : nat) (f : string) (fs : list string) :
  count_arity n (f :: fs)
  = ((if (List.length (references f) =? n)%nat then 1 else 0)
     + count_arity n fs)%nat.
Proof.
  unfold count_arity. cbn [filter].
  now destruct (List.length (references f) =? n)%nat.
Qed.

(** X5: when every face line has three or four references, load returns
    three indices per triangle and six per quad, so a whole number of
    triangles. *)
Theorem load_index_count (contents : string) :
  Forall triangle_or_quad (face_lines contents) ->
  List.length (snd (load contents))
  = (3 * count_arity 3 (face_lines contents)
     + 6 * count_arity 4 (face_lines contents))%nat.
Proof.
  rewrite load_spec. cbn [snd].
  induction 1 as [|f fs Hf _ IH]; [reflexivity|].
  cbn [flat_map]. rewrite length_app, IH, parseFace_length, !count_arity_cons.
  destruct Hf as [-> | ->]; cbn [Nat.eqb]; lia.
Qed.

(** X5 at a file with one quad and one triangle: 9 indices. *)
Lemma load_index_count_witness :
  List.length (snd (load one_quad)) = 9%nat.
Proof.
  rewrite (load_index_count one_quad); [reflexivity|].
  apply Forall_cons; [right; reflexivity|].
  apply Forall_cons; [left; reflexivity | apply Forall_nil].
Defined.

End OBJLoaderLines.

(* ================================================================== *)
(** ** WebGlApp: further properties of the camera *)

Module WebGlAppCamera.

Import WebGlApp JsNumberFacts Binary64Facts WebGlAppProofs.

Local Open Scope js_scope.

Lemma neg_zero : - zero = zero.
Proof. apply eqb_eq. vm_compute. reflexivity. Qed.

Lemma mul_zero_l (x : number) : is_finite x = true -> zero * x = zero.
Proof.
  intros F. destruct (finite_inv _ F) as [k ->].
  unfold mul, zero, of_Z. f_equal. apply Qcmult_0_l.
Qed.

Lemma mul_zero_r (x : number) : is_finite x = true -> x * zero = zero.
Proof. intros F. rewrite mul_comm. now apply mul_zero_l. Qed.

Lemma mul64_zero_r (x : number) : is_finite x = true -> mul64 x zero = zero.
Proof.
  intros F. unfold mul64. rewrite (mul_zero_r _ F). reflexivity.
Qed.

Lemma add_zero_r (x : number) : is_finite x = true -> x + zero = x.
Proof.
  intros F. destruct (finite_inv _ F) as [c ->].
  unfold add, zero, of_Z. f_equal. apply Qcplus_0_r.
Qed.

Lemma vec3_add_zero (v : vec3) :
  finite_vec v -> vec3_add v vec3_create = v.
Proof.
  intros (F0 & F1 & F2). destruct v as [x y z]. cbn [v0 v1 v2] in *.
  unfold vec3_add, vec3_create. cbn [v0 v1 v2].
  now rewrite !add_zero_r.
Qed.

Lemma vec3_add_binary64_zero (v : vec3) :
  binary64_vec v -> vec3_add_binary64 v vec3_create = v.
Proof.
  intros ((F0 & F1 & F2) & R0 & R1 & R2). destruct v as [x y z].
  cbn [v0 v1 v2] in *.
  unfold vec3_add_binary64, vec3_create. cbn [v0 v1 v2].
  now rewrite !add64_zero_r.
Qed.

(** With a still pointer the pan block builds the zero vector. *)
Lemma pan_vector_still (a : app) (i : Input) (delta_time : number) :
  getMouseDx i = zero -> getMouseDy i = zero ->
  finite_vec (right a) -> finite_vec (up a) ->
  (is_finite (two * delta_time) = true ->
   pan_vector a i delta_time = vec3_create)
  /\ (is_finite (mul64 two delta_time) = true ->
      pan_vector_binary64 a i delta_time = vec3_create).
Proof.
  intros Dx Dy (R0 & R1 & R2) (U0 & U1 & U2). split; intros Fs.
  - unfold pan_vector, vec3_create. rewrite Dx, Dy, neg_zero.
    rewrite !(mul_zero_l _ Fs), !mul_zero_l by assumption.
    reflexivity.
  - unfold pan_vector_binary64, vec3_scaleAndAdd_binary64, store32,
      vec3_create.
    cbn [v0 v1 v2]. rewrite Dx, Dy, neg_zero.
    rewrite !(mul64_zero_l _ Fs), !mul64_zero_r by assumption.
    reflexivity.
Qed.

Section Camera.

Context {G : GlMatrixExt}.

Lemma updateCamera_idle_frame (a : app) (i : Input) (delta_time : number) :
  zoom_active i = false -> rotate_active i = false -> pan_active i = false ->
  updateCamera a i delta_time = a.
Proof.
  unfold zoom_active, rotate_active, pan_active, updateCamera.
  intros -> -> ->. reflexivity.
Qed.

Lemma updateCamera_active_consistent (a : app) (i : Input)
  (delta_time : number) :
  node_active i = true -> camera_consistent (updateCamera a i delta_time).
Proof.
  unfold node_active, zoom_active, rotate_active, pan_active, updateCamera.
  destruct (isMouseDown i 2), (isMouseDown i 0 && negb (isKeyDown_space i)),
    (isMouseDown i 1 || isMouseDown i 0 && isKeyDown_space i);
    cbn [orb]; intros H; try discriminate;
    (repeat split; try reflexivity; eexists; reflexivity).
Qed.

(** X9: the derived camera fields always agree with eye and center.  The
    camera of the constructor has view-space vectors computed from its eye
    and center, a view matrix that is the lookAt of eye, center and up, and
    the same matrix in the shader; every call of updateCamera keeps this,
    and a call on which a mode is active establishes it from any state. *)
Theorem camera_stays_consistent :
  camera_consistent initial_app
  /\ (forall a i delta_time,
        node_active i = true ->
        camera_consistent (updateCamera a i delta_time))
  /\ (forall a i delta_time,
        camera_consistent a ->
        camera_consistent (updateCamera a i delta_time)).
Proof.
  split; [|split].
  - unfold initial_app. repeat split; try reflexivity. eexists. reflexivity.
  - apply updateCamera_active_consistent.
  - intros a i delta_time H.
    destruct (node_active i) eqn:E;
      [now apply updateCamera_active_consistent|].
    unfold node_active in E.
    apply orb_false_iff in E. destruct E as [E Ep].
    apply orb_false_iff in E. destruct E as [Ez Er].
    now rewrite updateCamera_idle_frame.
Qed.

(** X10: only the pan mode moves the look-at target: on a frame where pan
    is not active, whatever else is held, center is unchanged. *)
Theorem updateCamera_center_moves_only_by_pan (a : app) (i : Input)
  (delta_time : number) :
  pan_active i = false ->
  center (updateCamera a i delta_time) = center a.
Proof.
  intros H. destruct (updateCamera_modes a i delta_time) as [_ ->].
  unfold camera_modes. rewrite H.
  destruct (zoom_active i), (rotate_active i); reflexivity.
Qed.

End Camera.

(** X9 on a pan frame from the camera of the constructor. *)
Lemma camera_stays_consistent_witness :
  @camera_consistent glmatrix_idle
    (@updateCamera glmatrix_idle (@initial_app glmatrix_idle) drag_middle half).
Proof.
  apply (proj2 (proj2 (@camera_stays_consistent glmatrix_idle))).
  apply (proj1 (@camera_stays_consistent glmatrix_idle)).
Defined.

(** X10 on a zoom frame. *)
Lemma updateCamera_center_witness :
  center (@updateCamera glmatrix_idle camera_front drag_secondary half)
  = center camera_front.
Proof.
  apply (@updateCamera_center_moves_only_by_pan glmatrix_idle). reflexivity.
Defined.

Section StillPointer.

Context {G : GlMatrixExt}.

(** X14: a pan frame with a still pointer moves nothing.  When the pan
    mode alone is active and the pointer delta is (0, 0), updateCamera
    leaves eye and center at their values, for finite right and up and a
    frame time of moderate size; in binary64 arithmetic too, as long as
    [2 * delta_time] is finite.  (A zoom frame with a still pointer does
    move the eye in binary64 arithmetic: see [updateCamera_zoom_rounds].) *)
Theorem updateCamera_still_pointer (a : app) (i : Input)
  (delta_time : number) :
  zoom_active i = false -> rotate_active i = false -> pan_active i = true ->
  getMouseDx i = zero -> getMouseDy i = zero ->
  finite_vec (right a) -> finite_vec (up a) ->
  (finite_vec (eye a) -> finite_vec (center a) ->
   moderate delta_time = true ->
   eye (updateCamera a i delta_time) = eye a
   /\ center (updateCamera a i delta_time) = center a)
  /\ (binary64_vec (eye a) -> binary64_vec (center a) ->
      is_finite (mul64 two delta_time) = true ->
      eye (updateCamera_binary64 a i delta_time) = eye a
      /\ center (updateCamera_binary64 a i delta_time) = center a).
Proof.
  intros Hz Hr Hp Dx Dy Fr Fu.
  destruct (pan_vector_still a i delta_time Dx Dy Fr Fu) as [P P64].
  split.
  - intros Fe Fc Mt.
    destruct (moderate_finite _ Mt) as [t Et].
    destruct (updateCamera_modes a i delta_time) as [-> ->].
    unfold camera_modes. rewrite Hz, Hr, Hp.
    destruct (camera_pan_adds a i delta_time) as [-> ->].
    rewrite P by (rewrite Et; reflexivity).
    split; now apply vec3_add_zero.
  - intros Fe Fc Fs.
    destruct (updateCamera_binary64_pan_only a i delta_time Hz Hr Hp)
      as [-> ->].
    rewrite (P64 Fs). split; now apply vec3_add_binary64_zero.
Qed.

End StillPointer.

(** X14 at the camera in front of the origin, the middle button held. *)
Lemma updateCamera_still_pointer_witness :
  (eye (@updateCamera glmatrix_idle camera_front still_middle half)
   = eye camera_front
   /\ center (@updateCamera glmatrix_idle camera_front still_middle half)
      = center camera_front)
  /\ (eye (@updateCamera_binary64 glmatrix_idle camera_front still_middle
             half)
      = eye camera_front
      /\ center (@updateCamera_binary64 glmatrix_idle camera_front
                   still_middle half)
         = center camera_front).
Proof.
  pose proof (@updateCamera_still_pointer glmatrix_idle camera_front
                still_middle half eq_refl eq_refl eq_refl eq_refl eq_refl)
    as H.
  destruct H as [H H64]; try (repeat split; reflexivity).
  split; [apply H | apply H64]; try reflexivity;
    repeat split;
    first [reflexivity | apply eqb_eq; vm_compute; reflexivity].
Defined.

End WebGlAppCamera.
